(** * ygg: the three-pane launcher palette of [src/ui/src/main.jsx]

    The React component [App] keeps four pieces of state
    ([parentIndex], [filterTexts], [parentIds], [childIds]), derives the
    filtered lists from the results of three queries, runs seven layout
    effects that clear filter texts and select first items, and installs
    one [keydown] handler.

    Embedding.
    - A render is a pure function of the state and of the query results
      of that render ([QueryData], one optional list per pane).
    - A layout effect fires when one of its dependencies differs from the
      value it had at the previous committed render ([Deps]); the state
      updates queued by the effects of one commit are applied together,
      and the component renders again while the state keeps changing
      ([pass]).
    - The handler is attached with [document.addEventListener] and the
      tree is mounted with [ReactDOM.render]: every [set...] call made by
      the handler is rendered and committed before the handler goes on
      ([update]).
    - The two libraries the component calls are not part of the
      repository: [match-sorter] is a parameter of the development
      ([selectRanked]), and of [react-query] only the result of
      [useQueries] at every render is used. *)

From Stdlib Require Import ZArith Bool Ascii String List Lia.
From stdpp Require Import base decidable option list strings.
Import ListNotations.
Local Open Scope string_scope.
Local Open Scope Z_scope.

(** ** JavaScript values used by the component *)

(** The values stored in [parentIds] and [childIds]: [null], a string id,
    or [undefined] (what [nextItem?.id] yields when there is no item). *)
Inductive JsVal : Type :=
| JUndefined
| JNull
| JStr (s : string).

#[export] Instance JsVal_eq_dec : EqDecision JsVal.
Proof. solve_decision. Defined.

(** [if (v)]: only a non-empty string is truthy among these values. *)
Definition truthy (v : JsVal) : bool :=
  match v with
  | JStr s => negb (String.eqb s "")
  | _ => false
  end.

(** [a ?? b] and [a || b] on these values. *)
Definition nullish_or (a : JsVal) (b : string) : string :=
  match a with
  | JStr s => s
  | _ => b
  end.

Definition falsy_or (a : JsVal) (b : string) : string :=
  match a with
  | JStr s => if String.eqb s "" then b else s
  | _ => b
  end.

(** Interpolation of a value in a template literal. *)
Definition interpolate (v : JsVal) : string :=
  match v with
  | JUndefined => "undefined"
  | JNull => "null"
  | JStr s => s
  end.

(** [String.prototype.toLowerCase], on the ASCII letters. *)
Definition lower_ascii (c : ascii) : ascii :=
  let n := nat_of_ascii c in
  if (Nat.leb 65 n && Nat.leb n 90)%bool then ascii_of_nat (n + 32) else c.

Fixpoint toLowerCase (s : string) : string :=
  match s with
  | EmptyString => EmptyString
  | String c s' => String (lower_ascii c) (toLowerCase s')
  end.

(** [hay.includes(needle)]: [needle] occurs in [hay] as a substring. *)
Fixpoint includes (hay needle : string) : bool :=
  if String.prefix needle hay then true
  else match hay with
       | EmptyString => false
       | String _ hay' => includes hay' needle
       end.

(** ** Panes and the three-element arrays *)

(** The indices 0, 1, 2 of the three panes. *)
Inductive PaneIndex : Type := DIRECT | ACTION | INDIRECT.

#[export] Instance PaneIndex_eq_dec : EqDecision PaneIndex.
Proof. solve_decision. Defined.

Definition pane_to_Z (i : PaneIndex) : Z :=
  match i with DIRECT => 0 | ACTION => 1 | INDIRECT => 2 end.

Definition pane_of_Z (z : Z) : PaneIndex :=
  match z with 0 => DIRECT | 1 => ACTION | _ => INDIRECT end.

(** The arrays created by [useImmer(['', '', ''])] and
    [useImmer([null, null, null])]: three cells, read and written at a
    pane index. *)
Record Arr3 (A : Type) : Type := mkArr3 { at0 : A; at1 : A; at2 : A }.
Arguments mkArr3 {A} _ _ _.
Arguments at0 {A} _.
Arguments at1 {A} _.
Arguments at2 {A} _.

#[export] Instance Arr3_eq_dec {A} `{EqDecision A} : EqDecision (Arr3 A).
Proof. solve_decision. Defined.

Definition get3 {A} (i : PaneIndex) (a : Arr3 A) : A :=
  match i with DIRECT => at0 a | ACTION => at1 a | INDIRECT => at2 a end.

(** [draft[i] = x] *)
Definition set3 {A} (i : PaneIndex) (x : A) (a : Arr3 A) : Arr3 A :=
  match i with
  | DIRECT => mkArr3 x (at1 a) (at2 a)
  | ACTION => mkArr3 (at0 a) x (at2 a)
  | INDIRECT => mkArr3 (at0 a) (at1 a) x
  end.

(** ** Items *)

(** A list entry as the component reads it: [id], [name], [detail],
    [hasChildren] and [indirectTypes] are read by the component itself;
    [details] is the second key handed to [matchSorter]. *)
Record Item : Type := mkItem {
  id : string;
  name : string;
  detail : string;
  details : option string;
  hasChildren : bool;
  indirectTypes : option (list string)
}.

#[export] Instance Item_eq_dec : EqDecision Item.
Proof. solve_decision. Defined.

(** [item[key]] for a string-valued property; [None] is [undefined]. *)
Definition prop (it : Item) (key : string) : option string :=
  if String.eqb key "id" then Some (id it)
  else if String.eqb key "name" then Some (name it)
  else if String.eqb key "detail" then Some (detail it)
  else if String.eqb key "details" then details it
  else None.

(** ** The state of the component *)

Record NavState : Type := mkNav {
  parentIndex : PaneIndex;
  filterTexts : Arr3 string;
  parentIds : Arr3 JsVal;
  childIds : Arr3 JsVal
}.

#[export] Instance NavState_eq_dec : EqDecision NavState.
Proof. solve_decision. Defined.

Definition initialNav : NavState :=
  mkNav DIRECT (mkArr3 "" "" "") (mkArr3 JNull JNull JNull)
        (mkArr3 JNull JNull JNull).

Definition itemCatalogId : string := "item-catalog".

(** [itemsQueries[i].data]: [None] while the query has no data. *)
Definition QueryData : Type := Arr3 (option (list Item)).

Definition noData : QueryData := mkArr3 None None None.

(** [query.data || []] *)
Definition dataOf (D : QueryData) (i : PaneIndex) : list Item :=
  default [] (get3 i D).

(** The urls the three queries fetch (their [queryFn]). *)
Definition queryUrl (s : NavState) (i : PaneIndex) : string :=
  match i with
  | DIRECT =>
      "/items/" ++ nullish_or (get3 DIRECT (parentIds s)) itemCatalogId
                ++ "/children"
  | ACTION =>
      "/items/" ++ interpolate (get3 DIRECT (childIds s)) ++ "/actions"
  | INDIRECT =>
      match get3 INDIRECT (parentIds s) with
      | JNull =>
          "/items/" ++ nullish_or (get3 INDIRECT (childIds s)) itemCatalogId
            ++ "/actions/" ++ interpolate (get3 ACTION (childIds s))
            ++ "/indirects"
      | p => "/items/" ++ nullish_or p itemCatalogId ++ "/children"
      end
  end.

(** [enabled] of the three queries. *)
Definition queryEnabled (s : NavState) (i : PaneIndex) : bool :=
  match i with
  | DIRECT => true
  | ACTION => negb (bool_decide (get3 DIRECT (childIds s) = JNull))
  | INDIRECT => negb (bool_decide (get3 ACTION (childIds s) = JNull))
  end.

(** Modelled from the spec: [wrapAround] is imported from
    [server/utils], which is not among the sources; the key table has
    [(activePaneIndex + (Shift? -1 : +1)) mod visiblePaneCount, wrapping]
    and [wrapping at both ends].  For a positive bound the result lies in
    [0, bound); the bound is 0 only for an empty list, where every index
    reads [undefined]. *)
Definition wrapAround (n bound : Z) : Z := n mod bound.

Section Navigator.

(** ** The filter

    [matchSorter(items, value, {keys})] belongs to the [match-sorter]
    package.  It reads the items through the listed keys only and returns
    some of them in an order of its own: it is represented by the function
    that maps the key values of all the items, and the search text, to the
    positions of the kept items in output order. *)
Variable selectRanked : list (list (option string)) -> string -> list nat.

Definition matchSorter (items : list Item) (value : string)
    (keys : list string) : list Item :=
  omap (fun i => items !! i)
       (selectRanked (map (fun it => map (prop it) keys) items) value).

(** ** What a render derives *)

(** [filteredListItems[i]] *)
Definition filteredListItems (D : QueryData) (s : NavState)
    (i : PaneIndex) : list Item :=
  matchSorter (dataOf D i) (get3 i (filterTexts s)) ["name"; "details"]%string.

(** [items?.[0]?.id] *)
Definition firstId (items : list Item) : JsVal :=
  match items with
  | [] => JUndefined
  | it :: _ => JStr (id it)
  end.

Definition firstChildListItemId (D : QueryData) (s : NavState)
    (i : PaneIndex) : JsVal :=
  firstId (filteredListItems D s i).

(** [list.find((item) => item.id === v)] *)
Definition findById (v : JsVal) (items : list Item) : option Item :=
  List.find (fun it => bool_decide (JStr (id it) = v)) items.

(** [list.findIndex((item) => item.id === v)], -1 when there is none *)
Fixpoint findIndexById (v : JsVal) (items : list Item) : Z :=
  match items with
  | [] => -1
  | it :: rest =>
      if bool_decide (JStr (id it) = v) then 0
      else let k := findIndexById v rest in
           if k <? 0 then -1 else k + 1
  end.

(** [list[k]] for a number [k] *)
Definition itemAt (items : list Item) (k : Z) : option Item :=
  if k <? 0 then None else items !! Z.to_nat k.

(** [shouldShowIndirect] *)
Definition shouldShowIndirect (D : QueryData) (s : NavState) : bool :=
  match get3 ACTION D with
  | None => false
  | Some items =>
      match findById (get3 ACTION (childIds s)) items with
      | None => false
      | Some it =>
          match indirectTypes it with
          | None => false
          | Some ts => 0 <? Z.of_nat (length ts)
          end
      end
  end.

(** ** Layout effects *)

(** The dependency values of the seven state-writing effects at one
    render. *)
Record Deps : Type := mkDeps {
  directParentId : JsVal;
  indirectParentId : JsVal;
  directChildId : JsVal;
  actionChildId : JsVal;
  firstDirectChildListItemId : JsVal;
  firstActionChildListItemId : JsVal;
  firstIndirectChildListItemId : JsVal
}.

#[export] Instance Deps_eq_dec : EqDecision Deps.
Proof. solve_decision. Defined.

Definition depsOf (D : QueryData) (s : NavState) : Deps :=
  {| directParentId := get3 DIRECT (parentIds s);
     indirectParentId := get3 INDIRECT (parentIds s);
     directChildId := get3 DIRECT (childIds s);
     actionChildId := get3 ACTION (childIds s);
     firstDirectChildListItemId := firstChildListItemId D s DIRECT;
     firstActionChildListItemId := firstChildListItemId D s ACTION;
     firstIndirectChildListItemId := firstChildListItemId D s INDIRECT |}.

(** The component between two renders: its state and the dependency
    values of the last committed render ([None] before the first one). *)
Record RState : Type := mkR {
  nav : NavState;
  lastDeps : option Deps
}.

#[export] Instance RState_eq_dec : EqDecision RState.
Proof. solve_decision. Defined.

(** A dependency changed since the last commit (every effect runs after
    the first render). *)
Definition changed (last : option Deps) (cur : Deps)
    (dep : Deps -> JsVal) : bool :=
  match last with
  | None => true
  | Some d => negb (bool_decide (dep d = dep cur))
  end.

Definition setFilterText (i : PaneIndex) (t : string) (s : NavState)
    : NavState :=
  mkNav (parentIndex s) (set3 i t (filterTexts s)) (parentIds s) (childIds s).

Definition setParentId (i : PaneIndex) (v : JsVal) (s : NavState)
    : NavState :=
  mkNav (parentIndex s) (filterTexts s) (set3 i v (parentIds s)) (childIds s).

Definition setChildId (i : PaneIndex) (v : JsVal) (s : NavState)
    : NavState :=
  mkNav (parentIndex s) (filterTexts s) (parentIds s) (set3 i v (childIds s)).

Definition setParentIndex (i : PaneIndex) (s : NavState) : NavState :=
  mkNav i (filterTexts s) (parentIds s) (childIds s).

(** One effect: it runs its update when one of its dependencies changed. *)
Definition useLayoutEffect (fires : bool) (upd : NavState -> NavState)
    (s : NavState) : NavState :=
  if fires then upd s else s.

(** [if (first) { setChildIds(draft => { draft[i] = first }) }] *)
Definition selectFirst (i : PaneIndex) (first : JsVal) (s : NavState)
    : NavState :=
  if truthy first then setChildId i first s else s.

(** The seven effects of one commit, in source order.  Their updates are
    queued during the commit and applied to the state in that order; the
    values they write were computed by the render ([cur]). *)
Definition runEffects (last : option Deps) (cur : Deps) (s : NavState)
    : NavState :=
  let ch := changed last cur in
  let s := useLayoutEffect (ch directParentId) (setFilterText DIRECT "") s in
  let s := useLayoutEffect (ch indirectParentId)
             (setFilterText INDIRECT "") s in
  let s := useLayoutEffect (ch directChildId) (setFilterText ACTION "") s in
  let s := useLayoutEffect (ch actionChildId) (setFilterText INDIRECT "") s in
  let s := useLayoutEffect (ch firstDirectChildListItemId)
             (selectFirst DIRECT (firstDirectChildListItemId cur)) s in
  let s := useLayoutEffect
             (ch firstActionChildListItemId
              || ch firstDirectChildListItemId || ch directChildId)
             (selectFirst ACTION (firstActionChildListItemId cur)) s in
  let s := useLayoutEffect
             (ch firstIndirectChildListItemId
              || ch firstDirectChildListItemId || ch actionChildId)
             (selectFirst INDIRECT (firstIndirectChildListItemId cur)) s in
  s.

(** One render and commit. *)
Definition commit (D : QueryData) (R : RState) : RState :=
  let cur := depsOf D (nav R) in
  {| nav := runEffects (lastDeps R) cur (nav R); lastDeps := Some cur |}.

(** Renders follow one another while the effects keep changing the state;
    an update that leaves the state as it is schedules no render. *)
Fixpoint settle (fuel : nat) (D : QueryData) (R : RState) : RState :=
  match fuel with
  | O => R
  | S n =>
      let R' := commit D R in
      if bool_decide (nav R' = nav R) then R' else settle n D R'
  end.

(** React gives up after 50 nested updates; the cascade never gets near
    (see [pass_settled]). *)
Definition nestedUpdateLimit : nat := 50.

Definition pass (D : QueryData) (R : RState) : RState :=
  settle nestedUpdateLimit D R.

(** A state update issued outside an effect: nothing happens when the
    state is left as it is, otherwise the component renders and the
    effects cascade. *)
Definition update (D : QueryData) (upd : NavState -> NavState) (R : RState)
    : RState :=
  let s' := upd (nav R) in
  if bool_decide (s' = nav R) then R
  else pass D {| nav := s'; lastDeps := lastDeps R |}.


(** ** The network *)

(** The body of the execute request, before [JSON.stringify]. *)
Record ExecuteBody : Type := mkBody {
  directId : JsVal;
  actionId : JsVal;
  indirectId : JsVal
}.

(** The second argument of [fetch]. *)
Record Config : Type := mkConfig {
  method : string;
  body : ExecuteBody
}.

Record Request : Type := mkRequest {
  url : string;
  config : option Config
}.

(** The properties the component reads from a response body. *)
Record Json : Type := mkJson {
  json_error : JsVal;
  json_itemId : JsVal;
  json_parentId : JsVal
}.

(** What [fetch] and [response.json()] give: the request is rejected, or
    a response arrives with its [ok] flag and a body that may fail to
    parse. *)
Inductive FetchResult : Type :=
| FetchRejected
| FetchResponse (ok : bool) (json : option Json).

Inductive JsError : Type :=
| TypeError
| NetworkError
| SyntaxError
| ApiError (error itemId : JsVal).

Inductive ApiResult : Type :=
| ApiReturn (json : Json)
| ApiThrow (e : JsError).

(** The world around the component: the server behind [fetch], and
    whether [window.app] exists. *)
Record Env : Type := mkEnv {
  fetch : Request -> FetchResult;
  windowApp : bool
}.

(** [api(fragment, config)] *)
Definition api (env : Env) (fragment : string) (cfg : option Config)
    : ApiResult :=
  match fetch env (mkRequest ("http://localhost:8080" ++ fragment) cfg) with
  | FetchRejected => ApiThrow NetworkError
  | FetchResponse _ None => ApiThrow SyntaxError
  | FetchResponse ok (Some json) =>
      if negb ok then ApiThrow (ApiError (json_error json) (json_itemId json))
      else ApiReturn json
  end.

(** ** The keydown handler *)

Record KeyEvent : Type := mkKey {
  key : string;
  shiftKey : bool;
  metaKey : bool;
  ctrlKey : bool;
  altKey : bool
}.

(** The cases of [switch (event.key)]. *)
Inductive KeyCase : Type :=
| CaseTab | CaseArrowRight | CaseArrowLeft | CaseArrowUp | CaseArrowDown
| CaseEnter | CaseBackspace | CaseDefault.

Definition keyCase (k : string) : KeyCase :=
  if String.eqb k "Tab" then CaseTab
  else if String.eqb k "ArrowRight" then CaseArrowRight
  else if String.eqb k "ArrowLeft" then CaseArrowLeft
  else if String.eqb k "ArrowUp" then CaseArrowUp
  else if String.eqb k "ArrowDown" then CaseArrowDown
  else if String.eqb k "Enter" then CaseEnter
  else if String.eqb k "Backspace" then CaseBackspace
  else CaseDefault.

(** How the promise of the [async] handler ends. *)
Inductive Completion : Type :=
| Resolved
| Rejected (e : JsError).

(** What one run of the handler does: the state it leaves, whether it
    called [event.preventDefault()], the requests it sent, whether it
    called [window.app.hide()], and how it ended. *)
Record Outcome : Type := mkOutcome {
  after : RState;
  defaultPrevented : bool;
  requests : list Request;
  hideRequested : bool;
  completion : Completion
}.

Definition finished (R : RState) (prevented : bool) : Outcome :=
  mkOutcome R prevented [] false Resolved.

Definition alphanumerics : string := "abcdefghijklmnopqrstuvwxyz1234567890".

(** The handler runs against the values of the render that installed it
    ([parentIndex], [selectedChildId], [filteredListItems],
    [shouldShowIndirect]); an awaited request is answered by [env] before
    anything else happens. *)
Definition handler (env : Env) (D : QueryData) (R : RState)
    (event : KeyEvent) : Outcome :=
  let s := nav R in
  let idx := parentIndex s in
  let selectedChildId := get3 idx (childIds s) in
  let items := filteredListItems D s idx in
  match keyCase (key event) with
  | CaseTab =>
      let bounds := if shouldShowIndirect D s then 3 else 2 in
      let direction := if shiftKey event then -1 else 1 in
      finished (update D
              (fun s' => setParentIndex
                 (pane_of_Z
                    (wrapAround (pane_to_Z (parentIndex s') + direction)
                       bounds)) s') R)
           true
  | CaseArrowRight =>
      match findById selectedChildId items with
      | None => mkOutcome R true [] false (Rejected TypeError)
      | Some item =>
          if hasChildren item
          then finished (update D (setParentId idx selectedChildId) R) true
          else finished R true
      end
  | CaseArrowLeft =>
      let parentId := get3 idx (parentIds s) in
      if bool_decide (parentId = JNull) then finished R true
      else
        let fragment := "/items/" ++ falsy_or parentId itemCatalogId in
        let sent := [mkRequest ("http://localhost:8080" ++ fragment) None] in
        match api env fragment None with
        | ApiThrow e => mkOutcome R true sent false (Rejected e)
        | ApiReturn json =>
            let itemParentId := json_parentId json in
            let target :=
              if bool_decide (itemParentId = JStr itemCatalogId)
              then JNull else itemParentId in
            mkOutcome (update D (setParentId idx target) R)
                      true sent false Resolved
        end
  | CaseArrowUp | CaseArrowDown =>
      let direction :=
        if String.eqb (key event) "ArrowUp" then -1 else 1 in
      let currentIndex := findIndexById selectedChildId items in
      let nextIndex :=
        wrapAround (currentIndex + direction) (Z.of_nat (length items)) in
      let nextId :=
        match itemAt items nextIndex with
        | Some nextItem => JStr (id nextItem)
        | None => JUndefined
        end in
      finished (update D (setChildId idx nextId) R) true
  | CaseEnter =>
      let cfg :=
        mkConfig "post"
          (mkBody (get3 DIRECT (childIds s)) (get3 ACTION (childIds s))
                  (get3 INDIRECT (childIds s))) in
      let sent :=
        [mkRequest ("http://localhost:8080" ++ "/execute-command")
                   (Some cfg)] in
      match api env "/execute-command" (Some cfg) with
      | ApiThrow e => mkOutcome R true sent false (Rejected e)
      | ApiReturn _ => mkOutcome R true sent (windowApp env) Resolved
      end
  | CaseBackspace =>
      finished (update D (setFilterText idx "") R) true
  | CaseDefault =>
      if metaKey event || ctrlKey event || altKey event then finished R false
      else if includes alphanumerics (toLowerCase (key event)) then
        let R1 := update D (setParentId idx (JStr itemCatalogId)) R in
        let R2 :=
          update D
            (fun s' =>
               setFilterText idx
                 (get3 idx (filterTexts s') ++ toLowerCase (key event)) s')
            R1 in
        finished R2 true
      else finished R false
  end.

(** A key pressed without Shift, Meta, Ctrl or Alt. *)
Definition plainKey (k : string) : KeyEvent := mkKey k false false false false.

(** ** Events *)

Inductive Event : Type :=
| Fetched (D : QueryData)
| KeyDown (event : KeyEvent)
| ClickPane (i : PaneIndex)
| ClickItem (k : nat).

(** The component together with the query results it last rendered. *)
Record App : Type := mkApp {
  itemsQueries : QueryData;
  component : RState
}.

Definition mount : App :=
  mkApp noData (pass noData (mkR initialNav None)).

(** The third header is rendered, and can be clicked, only while
    [shouldShowIndirect] holds; a row that is clicked is a row of the
    filtered list of the active pane. *)
Definition step (env : Env) (a : App) (ev : Event) : App :=
  let D := itemsQueries a in
  let R := component a in
  match ev with
  | Fetched D' => mkApp D' (pass D' R)
  | KeyDown event => mkApp D (after (handler env D R event))
  | ClickPane i =>
      if bool_decide (i = INDIRECT) && negb (shouldShowIndirect D (nav R))
      then a
      else mkApp D (update D (setParentIndex i) R)
  | ClickItem k =>
      match filteredListItems D (nav R) (parentIndex (nav R)) !! k with
      | Some item =>
          mkApp D (update D (setChildId (parentIndex (nav R))
                                        (JStr (id item))) R)
      | None => a
      end
  end.

Definition run (env : Env) (evs : list Event) : App :=
  fold_left (step env) evs mount.

(** ** Notions used to state the properties *)

(** A dependency has, at the render of [R], the value it had at the last
    commit: the effects that depend on it alone stay idle. *)
Definition quiet (D : QueryData) (R : RState) (dep : Deps -> JsVal) : Prop :=
  changed (lastDeps R) (depsOf D (nav R)) dep = false.

(** Nothing is left to do: a further render changes nothing. *)
Definition settled (D : QueryData) (R : RState) : Prop :=
  commit D R = R.

(** The first-item dependency of pane [i]. *)
Definition firstOf (i : PaneIndex) : Deps -> JsVal :=
  match i with
  | DIRECT => firstDirectChildListItemId
  | ACTION => firstActionChildListItemId
  | INDIRECT => firstIndirectChildListItemId
  end.

(** The first id [f] of pane [i] is not the one of the last commit. *)
Definition firstChangedSince (last : option Deps) (i : PaneIndex)
    (f : JsVal) : Prop :=
  match last with
  | None => True
  | Some d => firstOf i d <> f
  end.

(** The selection of pane [i] is the first id of the last commit whenever
    that id is truthy and satisfies [P]. *)
Definition selectionRule (P : JsVal -> Prop) (R : RState) (i : PaneIndex)
    : Prop :=
  forall d, lastDeps R = Some d -> truthy (firstOf i d) = true ->
            P (firstOf i d) -> get3 i (childIds (nav R)) = firstOf i d.

(** Pane [i] still has the selection its effect made: the first id of
    the last commit, when that id is truthy. *)
Definition followsFirst (R : RState) (i : PaneIndex) : Prop :=
  selectionRule (fun _ => True) R i.

(** The selection of pane [i] is the id of a row of [items]. *)
Definition selectedAmong (s : NavState) (i : PaneIndex)
    (items : list Item) : Prop :=
  exists it, In it items /\ get3 i (childIds s) = JStr (id it).

(** The selection of every pane with a non-empty filtered list is the id
    of one of its rows. *)
Definition selectionShown (D : QueryData) (s : NavState) : Prop :=
  forall i, filteredListItems D s i <> [] ->
            selectedAmong s i (filteredListItems D s i).

(** The selection of every pane is [null] or the id of a fetched item of
    that pane. *)
Definition selectionFetched (D : QueryData) (s : NavState) : Prop :=
  forall i, get3 i (childIds s) = JNull \/ selectedAmong s i (dataOf D i).

(** [ev] leaves the query results as they are. *)
Definition keepsData (D : QueryData) (ev : Event) : Prop :=
  match ev with
  | Fetched D' => D' = D
  | _ => True
  end.

(** [ev] is ArrowUp or ArrowDown pressed while the filtered list of the
    active pane is empty. *)
Definition arrowOnEmpty (a : App) (ev : Event) : Prop :=
  match ev with
  | KeyDown event =>
      (keyCase (key event) = CaseArrowUp \/
       keyCase (key event) = CaseArrowDown) /\
      filteredListItems (itemsQueries a) (nav (component a))
        (parentIndex (nav (component a))) = []
  | _ => False
  end.

(** ** Notions used for the further properties *)

(** Everything upstream of the filter text of pane [i] is quiet: no
    effect is about to clear it, now or later in the cascade. *)
Definition calm (D : QueryData) (R : RState) (i : PaneIndex) : Prop :=
  match i with
  | DIRECT => quiet D R directParentId
  | ACTION =>
      quiet D R directParentId /\ quiet D R firstDirectChildListItemId /\
      quiet D R directChildId
  | INDIRECT =>
      quiet D R directParentId /\ quiet D R indirectParentId /\
      quiet D R firstDirectChildListItemId /\ quiet D R directChildId /\
      quiet D R firstActionChildListItemId /\ quiet D R actionChildId
  end.

(** Pane [i] is calm and its first id is quiet as well: no effect is
    about to write its selection either. *)
Definition steady (D : QueryData) (R : RState) (i : PaneIndex) : Prop :=
  calm D R i /\ quiet D R (firstOf i).

(** The header of pane [i] is rendered (the third one only while
    [shouldShowIndirect] holds). *)
Definition paneRendered (D : QueryData) (s : NavState) (i : PaneIndex)
    : bool :=
  negb (bool_decide (i = INDIRECT) && negb (shouldShowIndirect D s)).

(** The sizes handed to [window.app.resize]. *)
Definition windowWidth (D : QueryData) (s : NavState) : Z :=
  if shouldShowIndirect D s then 520 else 352.

Definition windowHeight (D : QueryData) (s : NavState) : Z :=
  176 +
  Z.max (Z.min 5 (Z.of_nat (length (filteredListItems D s (parentIndex s)))))
        1 * 64.

(** [ev] writes a selection directly: ArrowUp, ArrowDown, or a click on
    a row. *)
Definition movesSelection (ev : Event) : Prop :=
  match ev with
  | KeyDown event =>
      keyCase (key event) = CaseArrowUp \/
      keyCase (key event) = CaseArrowDown
  | ClickItem _ => True
  | _ => False
  end.

(** [k] is a key that the default case types: it is none of the named
    keys and [includes] accepts it. *)
Definition typable (k : string) : Prop :=
  keyCase k = CaseDefault /\
  includes alphanumerics (toLowerCase k) = true.

(** The pane fed by the selection of pane [i]. *)
Definition downstream (i : PaneIndex) : PaneIndex :=
  match i with DIRECT => ACTION | _ => INDIRECT end.


(** The component after the keys [ks] were pressed one after the other,
    without modifier, the query results staying [D]. *)
Definition pressKeys (env : Env) (D : QueryData) (ks : list string)
    (R : RState) : RState :=
  fold_left (fun R' k => after (handler env D R' (plainKey k))) ks R.

(** ** The statements the development settles as written *)

(** After every sequence of events the selection of each pane with a
    non-empty filtered list is the id of one of its rows. *)
Definition autoSelectClaim : Prop :=
  forall env evs,
    let a := run env evs in
    selectionShown (itemsQueries a) (nav (component a)).

(** After every sequence of events each selection is [null] or the id of
    a fetched item. *)
Definition selectionFetchedClaim : Prop :=
  forall env evs,
    let a := run env evs in
    selectionFetched (itemsQueries a) (nav (component a)).

(** Typing "s" at the root: filter text "s", parent id as before, first
    match selected. *)
Definition typingScenarioClaim (env : Env) (D : QueryData) : Prop :=
  let before := nav (component (run env [Fetched D])) in
  let s := nav (component (run env [Fetched D; KeyDown (plainKey "s")])) in
  get3 DIRECT (filterTexts s) = "s"%string /\
  get3 DIRECT (parentIds s) = get3 DIRECT (parentIds before) /\
  get3 DIRECT (childIds s) =
    firstId (matchSorter (dataOf D DIRECT) "s" ["name"; "details"]%string).

(** An event that hides the indirect pane while it is active makes the
    action pane the active one. *)
Definition visibilityCouplingClaim : Prop :=
  forall env evs ev,
    let a := run env evs in
    let a' := step env a ev in
    parentIndex (nav (component a)) = INDIRECT ->
    shouldShowIndirect (itemsQueries a) (nav (component a)) = true ->
    shouldShowIndirect (itemsQueries a') (nav (component a')) = false ->
    parentIndex (nav (component a')) = ACTION.

(** A key pressed with Meta, Ctrl or Alt does nothing and is not
    consumed, whatever the key. *)
Definition modifierClaim : Prop :=
  forall env D R event,
    metaKey event || ctrlKey event || altKey event = true ->
    handler env D R event = finished R false.

End Navigator.

(** An ASCII letter or digit. *)
Definition isAlphanumeric (c : ascii) : bool :=
  let n := nat_of_ascii c in
  (Nat.leb 48 n && Nat.leb n 57) || (Nat.leb 65 n && Nat.leb n 90)
  || (Nat.leb 97 n && Nat.leb n 122).

(** ** A filter to run the navigator with

    The development holds for every [selectRanked].  To evaluate the
    navigator on concrete inputs it is run with the filter that keeps, in
    list order, the items one of whose key values contains the search
    text, letter case ignored. *)

Definition rowContains (value : string) (row : list (option string)) : bool :=
  existsb (fun v => match v with
                    | Some v => includes (toLowerCase v) (toLowerCase value)
                    | None => false
                    end) row.

Fixpoint keptFrom (k : nat) (rows : list (list (option string)))
    (value : string) : list nat :=
  match rows with
  | [] => []
  | row :: rest =>
      if rowContains value row then k :: keptFrom (S k) rest value
      else keptFrom (S k) rest value
  end.

Definition containsSelect (rows : list (list (option string)))
    (value : string) : list nat :=
  keptFrom 0 rows value.

(** ** Sample inputs *)

Definition plainItem (i n d : string) : Item := mkItem i n d None false None.

Definition folderItem (i n d : string) : Item := mkItem i n d None true None.

Definition shiftKeyed (k : string) : KeyEvent := mkKey k true false false false.

Definition ctrlKeyed (k : string) : KeyEvent := mkKey k false false true false.

(** A server that answers every request with [ok] and an empty body. *)
Definition okServer : Env :=
  mkEnv (fun _ => FetchResponse true (Some (mkJson JUndefined JUndefined JNull)))
        true.

(** A server that refuses every request. *)
Definition failingServer : Env :=
  mkEnv (fun _ => FetchResponse false
                    (Some (mkJson (JStr "failed") JUndefined JUndefined)))
        true.

Definition fruits : list Item :=
  [plainItem "apple" "apple" ""; plainItem "avocado" "avocado" "";
   plainItem "cherry" "cherry" ""].

Definition apps : list Item :=
  [plainItem "mail" "Mail" ""; plainItem "safari" "Safari" "";
   plainItem "slack" "Slack" ""].

Definition fruitData : QueryData := mkArr3 (Some fruits) None None.

Definition appData : QueryData := mkArr3 (Some apps) None None.

(** A folder is listed, then turns out to be empty. *)
Definition folderData : QueryData :=
  mkArr3 (Some [folderItem "projects" "Projects" ""]) None None.

Definition emptyFolderData : QueryData := mkArr3 (Some []) None None.

(** The selected action takes an indirect object; the one that replaces
    it does not. *)
Definition openWithData : QueryData :=
  mkArr3 (Some apps)
         (Some [mkItem "open-with" "Open With" "" None false
                       (Some ["application"%string])])
         (Some [plainItem "textedit" "TextEdit" ""]).

Definition openData : QueryData :=
  mkArr3 (Some apps)
         (Some [plainItem "open" "Open" ""])
         (Some [plainItem "textedit" "TextEdit" ""]).

(** Two items that differ in [id] and [detail] only. *)
Definition fooInDetail : Item := plainItem "a" "x" "foo".

Definition barInDetail : Item := plainItem "b" "x" "bar".

(** * The item catalog of [src/server/plugins/core.js]

    The catalog provider asks, for each preset, the provider named by the
    preset for the items under the preset's path, keeps the items that
    pass the preset's filter, and returns all of them in one list.  The
    filter objects come from [../filters.js] and are turned into
    predicates by the [sift] package; both are parameters here, as is the
    merging of two filter objects by object spread. *)

Module Catalog.
Section Catalog.

(** What a provider returns, and the filter objects handed to [sift]. *)
Variable Entry : Type.
Variable Filter : Type.
Variables isNotHidden isApplication : Filter.

(** [{ ...a, ...b }] *)
Variable spread : Filter -> Filter -> Filter.

(** [sift(filter)], a predicate on items. *)
Variable sift : Filter -> Entry -> bool.

Record Meta : Type := mkMeta { path : string }.

Record Preset : Type := mkPreset {
  itemProviderId : string;
  meta : Meta;
  filter : Filter
}.

(** A provider of the context: [run(meta)] is a promise, fulfilled with
    a list of items or rejected ([None]). *)
Record Provider : Type := mkProvider {
  id : string;
  run : Meta -> option (list Entry)
}.

Record Context : Type := mkContext {
  providers : list Provider;
  actions : list Entry
}.

Definition presets : list Preset :=
  [ mkPreset "folderProvider" (mkMeta "/Users/philippbrumm/Code") isNotHidden;
    mkPreset "folderProvider" (mkMeta "/Users/philippbrumm") isNotHidden;
    mkPreset "folderProvider" (mkMeta "/Users/philippbrumm/Downloads")
             isNotHidden;
    mkPreset "folderProvider" (mkMeta "/Users/philippbrumm/Desktop")
             isNotHidden;
    mkPreset "folderProvider" (mkMeta "/Applications")
             (spread isNotHidden isApplication);
    mkPreset "folderProvider" (mkMeta "/System/Applications")
             (spread isNotHidden isApplication) ].

(** [context.providers.find((provider) => provider.id === pid)] *)
Definition findProvider (context : Context) (pid : string)
    : option Provider :=
  List.find (fun provider => String.eqb (id provider) pid)
            (providers context).

(** The callback mapped over the presets: no provider gives the empty
    list (after a [console.error]); otherwise the items of the provider
    that pass the filter, or the provider's rejection. *)
Definition runPreset (context : Context) (preset : Preset)
    : option (list Entry) :=
  match findProvider context (itemProviderId preset) with
  | None => Some []
  | Some provider =>
      match run provider (meta preset) with
      | Some items => Some (List.filter (sift (filter preset)) items)
      | None => None
      end
  end.

(** The provider ids reported with [console.error], in preset order. *)
Definition reported (context : Context) (ps : list Preset) : list string :=
  map itemProviderId
      (List.filter
         (fun preset =>
            match findProvider context (itemProviderId preset) with
            | None => true
            | Some _ => false
            end) ps).

(** [Promise.all]: the list of the results when every promise is
    fulfilled, a rejection as soon as one is rejected. *)
Fixpoint promiseAll {A} (promises : list (option A)) : option (list A) :=
  match promises with
  | [] => Some []
  | None :: _ => None
  | Some x :: rest =>
      match promiseAll rest with
      | Some xs => Some (x :: xs)
      | None => None
      end
  end.

(** [(await Promise.all(ps.map(callback))).flat()] *)
Definition catalogOf (context : Context) (ps : list Preset)
    : option (list Entry) :=
  match promiseAll (map (runPreset context) ps) with
  | Some catalogItems => Some (concat catalogItems)
  | None => None
  end.

(** [itemCatalogProvider(context).run()] *)
Definition itemCatalogRun (context : Context) : option (list Entry) :=
  catalogOf context presets.

(** [actionCatalogProvider(context).run()] *)
Definition actionCatalogRun (context : Context) : option (list Entry) :=
  Some (actions context).

(** What one preset contributes to the catalog: an item that the
    provider found for the preset lists under the preset's path, and
    that passes the preset's filter. *)
Definition contributes (context : Context) (preset : Preset) (entry : Entry)
    : Prop :=
  exists provider items,
    findProvider context (itemProviderId preset) = Some provider /\
    run provider (meta preset) = Some items /\
    In entry items /\
    sift (filter preset) entry = true.

(** The provider found for a preset rejects. *)
Definition rejects (context : Context) (preset : Preset) : Prop :=
  exists provider,
    findProvider context (itemProviderId preset) = Some provider /\
    run provider (meta preset) = None.

End Catalog.

Arguments mkPreset {Filter} _ _ _.
Arguments itemProviderId {Filter} _.
Arguments meta {Filter} _.
Arguments filter {Filter} _.
Arguments mkProvider {Entry} _ _.
Arguments id {Entry} _.
Arguments run {Entry} _ _.
Arguments mkContext {Entry} _ _.
Arguments providers {Entry} _.
Arguments actions {Entry} _.
Arguments findProvider {Entry} _ _.
Arguments runPreset {Entry Filter} _ _ _.
Arguments reported {Entry Filter} _ _.
Arguments catalogOf {Entry Filter} _ _ _.
Arguments itemCatalogRun {Entry Filter} _ _ _ _ _.
Arguments actionCatalogRun {Entry} _.
Arguments contributes {Entry Filter} _ _ _ _.
Arguments rejects {Entry Filter} _ _.
Arguments presets {Filter} _ _ _.

End Catalog.

(** ** A catalog to run the provider with

    Items are names; a filter object is the predicate [sift] makes of it;
    spreading two filters requires both. *)

Definition notHidden (entry : string) : bool := negb (String.prefix "." entry).

Definition application (entry : string) : bool :=
  includes entry ".app".

Definition bothFilters (f g : string -> bool) (entry : string) : bool :=
  f entry && g entry.

(** A folder provider that lists three names under every path. *)
Definition folderProvider : Catalog.Provider string :=
  Catalog.mkProvider "folderProvider"
    (fun _ => Some [".git"; "Mail.app"; "notes.txt"])%string.

(** A provider with the same id that fails. *)
Definition brokenProvider : Catalog.Provider string :=
  Catalog.mkProvider "folderProvider" (fun _ => None).

Definition githubProvider : Catalog.Provider string :=
  Catalog.mkProvider "githubProvider" (fun _ => Some ["ygg"%string]).

Definition sampleContext (ps : list (Catalog.Provider string))
    : Catalog.Context string :=
  Catalog.mkContext ps [].

Definition sampleCatalog (ps : list (Catalog.Provider string))
    : option (list string) :=
  Catalog.itemCatalogRun notHidden application bothFilters (fun f => f)
    (sampleContext ps).

(** ** Components at rest to run the handler on *)

(** The fruits have arrived; "apple" is selected. *)
Definition fruitsShown : RState :=
  pass containsSelect fruitData (mkR initialNav None).

(** The folder "projects" is listed and selected. *)
Definition folderShown : RState :=
  pass containsSelect folderData (mkR initialNav None).

(** The direct pane has been drilled into "projects". *)
Definition folderOpened : RState :=
  pass containsSelect emptyFolderData
    (mkR (setParentId DIRECT (JStr "projects") initialNav) None).

(** A server for which every item lies directly under the catalog. *)
Definition flatServer : Env :=
  mkEnv (fun _ => FetchResponse true
                    (Some (mkJson JUndefined JUndefined (JStr "item-catalog"))))
        true.

(** The direct selection differs from the one of the last commit while
    the action pane still has a filter text. *)
Definition staleActionFilter : RState :=
  mkR (mkNav DIRECT (mkArr3 "" "o" "") (mkArr3 JNull JNull JNull)
             (mkArr3 (JStr "safari") JNull JNull))
      (Some (mkDeps JNull JNull (JStr "mail") JNull (JStr "mail")
                    JUndefined JUndefined)).

(** Apps, one action that takes an indirect object, and its objects have
    arrived; the first item of each list is selected. *)
Definition actionsShown : RState :=
  pass containsSelect openWithData (mkR initialNav None).

(** * Properties *)

Section NavigatorFacts.

Variable sel : list (list (option string)) -> string -> list nat.

(** ** What one commit writes *)

Lemma changed_same (d : Deps) (dep : Deps -> JsVal) :
  changed (Some d) d dep = false.
Proof. unfold changed. rewrite bool_decide_eq_true_2; reflexivity. Qed.

Lemma changed_false (last : option Deps) (cur : Deps) (dep : Deps -> JsVal) :
  changed last cur dep = false ->
  exists d, last = Some d /\ dep d = dep cur.
Proof.
  unfold changed. destruct last as [d|]; [|discriminate].
  intros H. exists d. split; [reflexivity|].
  apply negb_false_iff, bool_decide_eq_true in H. exact H.
Qed.

Ltac split_effects :=
  unfold runEffects; cbv zeta; unfold selectFirst;
  repeat match goal with
         | |- context [changed ?l ?c ?d] => destruct (changed l c d)
         | |- context [truthy ?v] => destruct (truthy v)
         end;
  reflexivity.

Lemma runEffects_parentIndex last cur s :
  parentIndex (runEffects last cur s) = parentIndex s.
Proof. split_effects. Qed.

Lemma runEffects_parentIds last cur s :
  parentIds (runEffects last cur s) = parentIds s.
Proof. split_effects. Qed.

Lemma runEffects_filter_direct last cur s :
  get3 DIRECT (filterTexts (runEffects last cur s)) =
  if changed last cur directParentId then ""%string
  else get3 DIRECT (filterTexts s).
Proof. split_effects. Qed.

Lemma runEffects_filter_action last cur s :
  get3 ACTION (filterTexts (runEffects last cur s)) =
  if changed last cur directChildId then ""%string
  else get3 ACTION (filterTexts s).
Proof. split_effects. Qed.

Lemma runEffects_filter_indirect last cur s :
  get3 INDIRECT (filterTexts (runEffects last cur s)) =
  if changed last cur indirectParentId || changed last cur actionChildId
  then ""%string
  else get3 INDIRECT (filterTexts s).
Proof. split_effects. Qed.

Lemma runEffects_child_direct last cur s :
  get3 DIRECT (childIds (runEffects last cur s)) =
  if changed last cur firstDirectChildListItemId
     && truthy (firstDirectChildListItemId cur)
  then firstDirectChildListItemId cur
  else get3 DIRECT (childIds s).
Proof. split_effects. Qed.

Lemma runEffects_child_action last cur s :
  get3 ACTION (childIds (runEffects last cur s)) =
  if (changed last cur firstActionChildListItemId
      || changed last cur firstDirectChildListItemId
      || changed last cur directChildId)
     && truthy (firstActionChildListItemId cur)
  then firstActionChildListItemId cur
  else get3 ACTION (childIds s).
Proof. split_effects. Qed.

Lemma runEffects_child_indirect last cur s :
  get3 INDIRECT (childIds (runEffects last cur s)) =
  if (changed last cur firstIndirectChildListItemId
      || changed last cur firstDirectChildListItemId
      || changed last cur actionChildId)
     && truthy (firstIndirectChildListItemId cur)
  then firstIndirectChildListItemId cur
  else get3 INDIRECT (childIds s).
Proof. split_effects. Qed.

Lemma first_depends_on_filter D s t i :
  get3 i (filterTexts s) = get3 i (filterTexts t) ->
  firstChildListItemId sel D s i = firstChildListItemId sel D t i.
Proof.
  intros H. unfold firstChildListItemId, filteredListItems. rewrite H.
  reflexivity.
Qed.

(** ** The cascade dies out

    Within one pass the query results are fixed.  The parent ids are not
    written by any effect, so the two filter resets that watch them run
    in the first commit only; from there each level of the cascade
    becomes quiet one commit after the level above it. *)

Lemma quiet_commit D R (dep : Deps -> JsVal) :
  dep (depsOf sel D (nav R)) = dep (depsOf sel D (nav (commit sel D R))) ->
  quiet sel D (commit sel D R) dep.
Proof.
  intros H. unfold quiet. cbn [lastDeps commit]. unfold changed.
  rewrite bool_decide_eq_true_2; auto.
Qed.

Lemma quiet_parents D R :
  quiet sel D (commit sel D R) directParentId /\
  quiet sel D (commit sel D R) indirectParentId.
Proof.
  split; apply quiet_commit; unfold depsOf, commit;
    cbn [directParentId indirectParentId nav];
    rewrite runEffects_parentIds; reflexivity.
Qed.

Lemma quiet_first_direct D R :
  quiet sel D R directParentId ->
  quiet sel D (commit sel D R) firstDirectChildListItemId.
Proof.
  intros H. apply quiet_commit. unfold depsOf.
  cbn [firstDirectChildListItemId]. apply first_depends_on_filter.
  unfold commit; cbn [nav].
  rewrite runEffects_filter_direct, H. reflexivity.
Qed.

Lemma quiet_child_direct D R :
  quiet sel D R firstDirectChildListItemId ->
  quiet sel D (commit sel D R) directChildId.
Proof.
  intros H. apply quiet_commit. unfold depsOf. cbn [directChildId].
  unfold commit; cbn [nav].
  rewrite runEffects_child_direct, H. reflexivity.
Qed.

Lemma quiet_first_action D R :
  quiet sel D R directChildId ->
  quiet sel D (commit sel D R) firstActionChildListItemId.
Proof.
  intros H. apply quiet_commit. unfold depsOf.
  cbn [firstActionChildListItemId]. apply first_depends_on_filter.
  unfold commit; cbn [nav].
  rewrite runEffects_filter_action, H. reflexivity.
Qed.

Lemma quiet_child_action D R :
  quiet sel D R firstDirectChildListItemId ->
  quiet sel D R directChildId ->
  quiet sel D R firstActionChildListItemId ->
  quiet sel D (commit sel D R) actionChildId.
Proof.
  intros H1 H2 H3. apply quiet_commit. unfold depsOf. cbn [actionChildId].
  unfold commit; cbn [nav].
  rewrite runEffects_child_action, H1, H2, H3. reflexivity.
Qed.

Lemma quiet_first_indirect D R :
  quiet sel D R indirectParentId ->
  quiet sel D R actionChildId ->
  quiet sel D (commit sel D R) firstIndirectChildListItemId.
Proof.
  intros H1 H2. apply quiet_commit. unfold depsOf.
  cbn [firstIndirectChildListItemId]. apply first_depends_on_filter.
  unfold commit; cbn [nav].
  rewrite runEffects_filter_indirect, H1, H2. reflexivity.
Qed.

(** When all seven dependencies are quiet no effect runs. *)
Lemma quiet_all_settled D R :
  quiet sel D R directParentId ->
  quiet sel D R indirectParentId ->
  quiet sel D R directChildId ->
  quiet sel D R actionChildId ->
  quiet sel D R firstDirectChildListItemId ->
  quiet sel D R firstActionChildListItemId ->
  quiet sel D R firstIndirectChildListItemId ->
  settled sel D R.
Proof.
  unfold quiet, settled, commit. intros H1 H2 H3 H4 H5 H6 H7.
  assert (Hnav : runEffects (lastDeps R) (depsOf sel D (nav R)) (nav R)
                 = nav R).
  { unfold runEffects. rewrite H1, H2, H3, H4, H5, H6, H7. reflexivity. }
  rewrite Hnav.
  destruct R as [s last]; cbn in *. f_equal.
  destruct (changed_false _ _ _ H1) as (d & -> & E1).
  destruct (changed_false _ _ _ H2) as (d2 & [= <-] & E2).
  destruct (changed_false _ _ _ H3) as (d3 & [= <-] & E3).
  destruct (changed_false _ _ _ H4) as (d4 & [= <-] & E4).
  destruct (changed_false _ _ _ H5) as (d5 & [= <-] & E5).
  destruct (changed_false _ _ _ H6) as (d6 & [= <-] & E6).
  destruct (changed_false _ _ _ H7) as (d7 & [= <-] & E7).
  f_equal. destruct d; unfold depsOf in *.
  cbn [directParentId indirectParentId directChildId actionChildId
       firstDirectChildListItemId firstActionChildListItemId
       firstIndirectChildListItemId] in *.
  congruence.
Qed.

Lemma runEffects_idle (d : Deps) (s : NavState) :
  runEffects (Some d) d s = s.
Proof. unfold runEffects. rewrite !changed_same. reflexivity. Qed.

(** A commit that leaves the state as it is ends the cascade. *)
Lemma commit_same_nav_settled D R :
  nav (commit sel D R) = nav R -> settled sel D (commit sel D R).
Proof.
  intros H.
  assert (E : lastDeps (commit sel D R) = Some (depsOf sel D (nav R)))
    by reflexivity.
  revert H E. generalize (commit sel D R). intros [s l]; cbn.
  intros -> ->. unfold settled, commit; cbn.
  rewrite runEffects_idle. reflexivity.
Qed.

(** Seven commits settle any state. *)
Lemma seven_commits_settle D R :
  settled sel D (Nat.iter 7 (commit sel D) R).
Proof.
  cbn [Nat.iter nat_rect].
  set (R1 := commit sel D R).
  set (R2 := commit sel D R1). set (R3 := commit sel D R2).
  set (R4 := commit sel D R3). set (R5 := commit sel D R4).
  set (R6 := commit sel D R5).
  pose proof (fun R => proj1 (quiet_parents D R)) as P0.
  pose proof (fun R => proj2 (quiet_parents D R)) as P2.
  pose proof (fun R => quiet_first_direct D (commit sel D R) (P0 R)) as F0.
  pose proof (fun R => quiet_child_direct D _ (F0 R)) as C0.
  pose proof (fun R => quiet_first_action D _ (C0 R)) as F1.
  pose proof (fun R =>
    quiet_child_action D _ (F0 (commit sel D (commit sel D R)))
      (C0 (commit sel D R)) (F1 R)) as C1.
  pose proof (fun R =>
    quiet_first_indirect D _ (P2 (commit sel D (commit sel D
      (commit sel D (commit sel D R))))) (C1 R)) as F2.
  apply commit_same_nav_settled.
  assert (S6 : settled sel D R6).
  { apply quiet_all_settled.
    - apply P0.
    - apply P2.
    - apply (C0 R3).
    - apply (C1 R1).
    - apply (F0 R4).
    - apply (F1 R2).
    - apply (F2 R). }
  fold R6. rewrite S6. reflexivity.
Qed.

Lemma iter_settled n D R :
  settled sel D R -> Nat.iter n (commit sel D) R = R.
Proof.
  intros H. induction n as [|n IH]; [reflexivity|].
  rewrite Nat.iter_succ, IH. exact H.
Qed.

(** The loop of [settle] is the iteration of [commit]: stopping at the
    first commit that changes nothing loses nothing. *)
Lemma settle_iter n D R :
  settle sel n D R = Nat.iter n (commit sel D) R.
Proof.
  revert R. induction n as [|n IH]; intros R; [reflexivity|].
  rewrite Nat.iter_succ_r. cbn [settle].
  case_bool_decide as Hnav.
  - symmetry. apply iter_settled, commit_same_nav_settled, Hnav.
  - apply IH.
Qed.

Lemma pass_seven D R :
  pass sel D R = Nat.iter 7 (commit sel D) R.
Proof.
  unfold pass, nestedUpdateLimit. rewrite settle_iter.
  change 50%nat with (43 + 7)%nat. rewrite Nat.iter_add.
  apply iter_settled, seven_commits_settle.
Qed.

(** The pass ends, well within the limit, in a state that a further
    render leaves alone. *)
Lemma pass_settled D R : settled sel D (pass sel D R).
Proof. rewrite pass_seven. apply seven_commits_settle. Qed.

Lemma pass_of_settled D R : settled sel D R -> pass sel D R = R.
Proof.
  intros H. rewrite pass_seven. apply iter_settled, H.
Qed.

(** C9. The pass is idempotent: run again on the state it produced, with
    the same query results, it changes neither the navigator state nor
    the remembered dependencies. *)
Theorem pass_idempotent D R :
  pass sel D (pass sel D R) = pass sel D R.
Proof. apply pass_of_settled, pass_settled. Qed.

(** ** Auto-selection *)

Lemma firstOf_depsOf D s i :
  firstOf i (depsOf sel D s) = firstChildListItemId sel D s i.
Proof. destruct i; reflexivity. Qed.

(** What a commit does to the selection of a pane: it writes the truthy
    first id of the render, or leaves the selection alone because the
    first id is falsy or did not change. *)
Lemma runEffects_child_cases last cur s i :
  (truthy (firstOf i cur) = true /\
   get3 i (childIds (runEffects last cur s)) = firstOf i cur) \/
  (get3 i (childIds (runEffects last cur s)) = get3 i (childIds s) /\
   (truthy (firstOf i cur) = false \/ changed last cur (firstOf i) = false)).
Proof.
  destruct i; cbn [firstOf].
  - rewrite runEffects_child_direct.
    destruct (truthy (firstDirectChildListItemId cur)),
             (changed last cur firstDirectChildListItemId); cbn; auto.
  - rewrite runEffects_child_action.
    destruct (truthy (firstActionChildListItemId cur)),
             (changed last cur firstActionChildListItemId),
             (changed last cur firstDirectChildListItemId),
             (changed last cur directChildId); cbn; auto.
  - rewrite runEffects_child_indirect.
    destruct (truthy (firstIndirectChildListItemId cur)),
             (changed last cur firstIndirectChildListItemId),
             (changed last cur firstDirectChildListItemId),
             (changed last cur actionChildId); cbn; auto.
Qed.

Lemma commit_selectionRule P D R i :
  selectionRule P R i -> selectionRule P (commit sel D R) i.
Proof.
  intros H d Hd Ht HP. cbn in Hd. injection Hd as <-.
  cbn [nav commit].
  destruct (runEffects_child_cases (lastDeps R) (depsOf sel D (nav R))
              (nav R) i) as [[_ E]|[E [F|F]]].
  - exact E.
  - congruence.
  - rewrite E. apply changed_false in F as (d' & Hd' & Hf).
    rewrite <- Hf in *. apply H; assumption.
Qed.

Lemma iter_selectionRule P D R i n :
  selectionRule P R i ->
  selectionRule P (Nat.iter n (commit sel D) R) i.
Proof.
  intros H. induction n as [|n IH]; [exact H|].
  rewrite Nat.iter_succ. apply commit_selectionRule, IH.
Qed.

Lemma pass_selectionRule P D R i :
  selectionRule P R i -> selectionRule P (pass sel D R) i.
Proof. rewrite pass_seven. apply iter_selectionRule. Qed.

Lemma settled_lastDeps D R :
  settled sel D R -> lastDeps R = Some (depsOf sel D (nav R)).
Proof. unfold settled. intros H. rewrite <- H at 1. reflexivity. Qed.

Lemma firstId_truthy_head items :
  truthy (firstId items) = true ->
  exists it, In it items /\ firstId items = JStr (id it).
Proof.
  destruct items as [|it rest]; cbn; [discriminate|].
  intros _. exists it. auto.
Qed.

(** C1 (amended). After any pass, take a pane whose filtered list starts
    with an item of non-empty id.  If that first id is not the one of the
    last commit before the pass, or if the selection on entry was still
    the first id of the last commit, then the selection is that first id,
    the id of a row of the filtered list. *)
Theorem autoselect_after_pass D R i :
  let R' := pass sel D R in
  let f := firstChildListItemId sel D (nav R') i in
  truthy f = true ->
  firstChangedSince (lastDeps R) i f \/ followsFirst R i ->
  get3 i (childIds (nav R')) = f /\
  selectedAmong (nav R') i (filteredListItems sel D (nav R') i).
Proof.
  intros R' f Ht Hc.
  assert (Hrule : selectionRule
            (fun v => firstChangedSince (lastDeps R) i v \/ followsFirst R i)
            R' i).
  { apply pass_selectionRule. intros d Hd Htd [Hch|Hf].
    - rewrite Hd in Hch. cbn in Hch. congruence.
    - apply Hf; auto. }
  pose proof (settled_lastDeps D R' (pass_settled D R)) as Hlast.
  specialize (Hrule _ Hlast). rewrite firstOf_depsOf in Hrule.
  specialize (Hrule Ht Hc). split; [exact Hrule|].
  destruct (firstId_truthy_head _ Ht) as (it & Hin & Hid).
  exists it. split; [exact Hin|]. rewrite Hrule. exact Hid.
Qed.

(** ** What a pass leaves alone *)

Lemma commit_parentIndex D R :
  parentIndex (nav (commit sel D R)) = parentIndex (nav R).
Proof. apply runEffects_parentIndex. Qed.

Lemma commit_parentIds D R :
  parentIds (nav (commit sel D R)) = parentIds (nav R).
Proof. apply runEffects_parentIds. Qed.

Lemma iter_invariant {A} (P : RState -> A) D :
  (forall R, P (commit sel D R) = P R) ->
  forall n R, P (Nat.iter n (commit sel D) R) = P R.
Proof.
  intros H n R. induction n as [|n IH]; [reflexivity|].
  rewrite Nat.iter_succ, H. exact IH.
Qed.

(** No effect writes [parentIndex]. *)
Lemma pass_parentIndex D R :
  parentIndex (nav (pass sel D R)) = parentIndex (nav R).
Proof.
  rewrite pass_seven.
  apply (iter_invariant (fun R => parentIndex (nav R))), commit_parentIndex.
Qed.

(** No effect writes [parentIds]. *)
Lemma pass_parentIds D R :
  parentIds (nav (pass sel D R)) = parentIds (nav R).
Proof.
  rewrite pass_seven.
  apply (iter_invariant (fun R => parentIds (nav R))), commit_parentIds.
Qed.

(** The effects write nothing but the empty string to a filter text. *)
Lemma commit_filter_cases D R i :
  get3 i (filterTexts (nav (commit sel D R))) = ""%string \/
  get3 i (filterTexts (nav (commit sel D R))) = get3 i (filterTexts (nav R)).
Proof.
  unfold commit; cbn [nav]. destruct i.
  - rewrite runEffects_filter_direct. destruct (changed _ _ _); auto.
  - rewrite runEffects_filter_action. destruct (changed _ _ _); auto.
  - rewrite runEffects_filter_indirect. destruct (_ || _); auto.
Qed.

Lemma pass_filter_cases D R i :
  get3 i (filterTexts (nav (pass sel D R))) = ""%string \/
  get3 i (filterTexts (nav (pass sel D R))) = get3 i (filterTexts (nav R)).
Proof.
  rewrite pass_seven. generalize 7%nat. intros n.
  induction n as [|n IH]; [auto|].
  rewrite Nat.iter_succ.
  destruct (commit_filter_cases D (Nat.iter n (commit sel D) R) i)
    as [E|E]; [auto|].
  rewrite E. exact IH.
Qed.

(** The filter text of the direct pane survives a pass that starts with
    its parent id unchanged. *)
Lemma pass_filter_direct_kept D R :
  quiet sel D R directParentId ->
  get3 DIRECT (filterTexts (nav (pass sel D R))) =
  get3 DIRECT (filterTexts (nav R)).
Proof.
  rewrite pass_seven. generalize 7%nat. intros n. revert R.
  induction n as [|n IH]; intros R H; [reflexivity|].
  rewrite Nat.iter_succ_r, IH by apply quiet_parents.
  unfold commit; cbn [nav]. rewrite runEffects_filter_direct, H.
  reflexivity.
Qed.

(** ** Selections stay among the fetched items *)

Lemma matchSorter_In items value keys it :
  In it (matchSorter sel items value keys) -> In it items.
Proof.
  unfold matchSorter. intros H.
  apply list_elem_of_In, list_elem_of_omap in H as (k & _ & Hk).
  apply list_elem_of_In. eapply list_elem_of_lookup_2, Hk.
Qed.

Lemma filtered_In D s i it :
  In it (filteredListItems sel D s i) -> In it (dataOf D i).
Proof. apply matchSorter_In. Qed.

Lemma matchSorter_nil value keys : matchSorter sel [] value keys = [].
Proof.
  unfold matchSorter. generalize (sel (map (fun it => map (prop it) keys) [])
                                      value).
  intros l. induction l as [|k l IH]; [reflexivity|].
  cbn. rewrite lookup_nil. exact IH.
Qed.

Lemma first_among_fetched D s i :
  truthy (firstChildListItemId sel D s i) = true ->
  exists it, In it (dataOf D i) /\
             firstChildListItemId sel D s i = JStr (id it).
Proof.
  intros H. destruct (firstId_truthy_head _ H) as (it & Hin & Hid).
  exists it. split; [|exact Hid]. eapply filtered_In, Hin.
Qed.

Lemma commit_selectionFetched D R :
  selectionFetched D (nav R) -> selectionFetched D (nav (commit sel D R)).
Proof.
  intros H i. unfold selectedAmong. cbn [nav commit].
  destruct (runEffects_child_cases (lastDeps R) (depsOf sel D (nav R))
              (nav R) i) as [[Ht E]|[E _]]; rewrite E.
  - right. rewrite firstOf_depsOf in *. apply first_among_fetched, Ht.
  - apply H.
Qed.

Lemma pass_selectionFetched D R :
  selectionFetched D (nav R) -> selectionFetched D (nav (pass sel D R)).
Proof.
  rewrite pass_seven. generalize 7%nat. intros n H.
  induction n as [|n IH]; [exact H|].
  rewrite Nat.iter_succ. apply commit_selectionFetched, IH.
Qed.

Lemma update_selectionFetched D upd R :
  selectionFetched D (nav R) ->
  selectionFetched D (upd (nav R)) ->
  selectionFetched D (nav (update sel D upd R)).
Proof.
  intros H1 H2. unfold update. case_bool_decide; [exact H1|].
  apply pass_selectionFetched. exact H2.
Qed.

Lemma selectionFetched_ext D s t :
  childIds t = childIds s -> selectionFetched D s -> selectionFetched D t.
Proof.
  intros E H i. unfold selectedAmong. rewrite E. apply H.
Qed.

Lemma selectionFetched_setChildId D s i it :
  In it (dataOf D i) -> selectionFetched D s ->
  selectionFetched D (setChildId i (JStr (id it)) s).
Proof.
  intros Hin H j. unfold selectedAmong.
  destruct (decide (j = i)) as [->|Hne].
  - right. exists it. split; [exact Hin|]. destruct i; reflexivity.
  - replace (get3 j (childIds (setChildId i (JStr (id it)) s)))
      with (get3 j (childIds s))
      by (destruct i, j; first [reflexivity | congruence]).
    apply H.
Qed.

(** On a non-empty list the wrapped index always reads an item. *)
Lemma itemAt_wrapAround (items : list Item) (k : Z) :
  items <> [] ->
  exists it, itemAt items (wrapAround k (Z.of_nat (length items))) = Some it
             /\ In it items.
Proof.
  intros Hne. unfold itemAt, wrapAround.
  assert (Hlen : 0 < Z.of_nat (length items)).
  { destruct items; [contradiction|cbn; lia]. }
  pose proof (Z.mod_pos_bound k _ Hlen) as [Hlo Hhi].
  destruct (Z.ltb_spec (k mod Z.of_nat (length items)) 0) as [?|_]; [lia|].
  destruct (lookup_lt_is_Some_2 items
              (Z.to_nat (k mod Z.of_nat (length items)))) as [it Hit].
  { lia. }
  exists it. split; [exact Hit|].
  apply list_elem_of_In. eapply list_elem_of_lookup_2, Hit.
Qed.

(** The handler keeps every selection among the fetched items, unless it
    is ArrowUp or ArrowDown on an empty filtered list. *)
Lemma handler_selectionFetched env D R event :
  selectionFetched D (nav R) ->
  ~ arrowOnEmpty sel (mkApp D R) (KeyDown event) ->
  selectionFetched D (nav (after (handler sel env D R event))).
Proof.
  intros H Hne. unfold handler. cbn in Hne.
  assert (Harrow :
    (keyCase (key event) = CaseArrowUp \/
     keyCase (key event) = CaseArrowDown) ->
    selectionFetched D
      (nav (update sel D
         (setChildId (parentIndex (nav R))
            match
              itemAt (filteredListItems sel D (nav R) (parentIndex (nav R)))
                (wrapAround
                   (findIndexById
                      (get3 (parentIndex (nav R)) (childIds (nav R)))
                      (filteredListItems sel D (nav R)
                         (parentIndex (nav R)))
                    + (if String.eqb (key event) "ArrowUp" then -1 else 1))
                   (Z.of_nat
                      (length (filteredListItems sel D (nav R)
                                 (parentIndex (nav R))))))
            with
            | Some nextItem => JStr (id nextItem)
            | None => JUndefined
            end) R))).
  { intros K.
    assert (Hl : filteredListItems sel D (nav R) (parentIndex (nav R)) <> [])
      by tauto.
    destruct (itemAt_wrapAround _
                (findIndexById
                   (get3 (parentIndex (nav R)) (childIds (nav R)))
                   (filteredListItems sel D (nav R) (parentIndex (nav R)))
                 + (if String.eqb (key event) "ArrowUp" then -1 else 1)) Hl)
      as (it & -> & Hin).
    apply update_selectionFetched; [exact H|].
    apply selectionFetched_setChildId; [|exact H].
    eapply filtered_In, Hin. }
  destruct (keyCase (key event)) eqn:K; cbn [after finished].
  - apply update_selectionFetched; [exact H|].
    eapply selectionFetched_ext; [|exact H]. reflexivity.
  - destruct (findById _ _) as [item|]; cbn [after]; [|exact H].
    destruct (hasChildren item); cbn [after finished]; [|exact H].
    apply update_selectionFetched; [exact H|].
    eapply selectionFetched_ext; [|exact H]. reflexivity.
  - case_bool_decide; cbn [after finished]; [exact H|].
    destruct (api _ _ _); cbn [after]; [|exact H].
    apply update_selectionFetched; [exact H|].
    eapply selectionFetched_ext; [|exact H]. reflexivity.
  - apply Harrow. auto.
  - apply Harrow. auto.
  - destruct (api _ _ _); exact H.
  - apply update_selectionFetched; [exact H|].
    eapply selectionFetched_ext; [|exact H]. reflexivity.
  - destruct (metaKey event || ctrlKey event || altKey event);
      cbn [after finished]; [exact H|].
    destruct (includes _ _); cbn [after finished]; [|exact H].
    assert (H1 : selectionFetched D
                   (nav (update sel D
                      (setParentId (parentIndex (nav R)) (JStr itemCatalogId))
                      R))).
    { apply update_selectionFetched; [exact H|].
      eapply selectionFetched_ext; [|exact H]. reflexivity. }
    apply update_selectionFetched; [exact H1|].
    eapply selectionFetched_ext; [|exact H1]. reflexivity.
Qed.

(** C5 (amended). While the query results stay the same, every event
    other than ArrowUp or ArrowDown on an empty filtered list keeps each
    pane's selection [null] or the id of an item of that pane's fetched
    list. *)
Theorem selection_stays_fetched env a ev :
  selectionFetched (itemsQueries a) (nav (component a)) ->
  keepsData (itemsQueries a) ev ->
  ~ arrowOnEmpty sel a ev ->
  selectionFetched (itemsQueries (step sel env a ev))
                   (nav (component (step sel env a ev))).
Proof.
  destruct a as [D R]. cbn [itemsQueries component].
  intros H Hd Hne. destruct ev as [D'|event|i|k]; cbn [step itemsQueries
    component].
  - cbn in Hd. subst D'. apply pass_selectionFetched, H.
  - apply handler_selectionFetched; assumption.
  - destruct (bool_decide (i = INDIRECT)
              && negb (shouldShowIndirect D (nav R)));
      cbn [itemsQueries component]; [exact H|].
    apply update_selectionFetched; [exact H|].
    eapply selectionFetched_ext; [|exact H]. reflexivity.
  - destruct (filteredListItems sel D (nav R) (parentIndex (nav R)) !! k)
      as [item|] eqn:Hk; cbn [itemsQueries component]; [|exact H].
    apply update_selectionFetched; [exact H|].
    apply selectionFetched_setChildId; [|exact H].
    eapply filtered_In. apply list_elem_of_In.
    eapply list_elem_of_lookup_2, Hk.
Qed.

(** ** The active pane *)

Lemma update_parentIndex D upd R :
  parentIndex (nav (update sel D upd R)) = parentIndex (upd (nav R)).
Proof.
  unfold update. case_bool_decide as E.
  - rewrite E. reflexivity.
  - apply pass_parentIndex.
Qed.

Lemma update_parentIds D upd R :
  parentIds (nav (update sel D upd R)) = parentIds (upd (nav R)).
Proof.
  unfold update. case_bool_decide as E.
  - rewrite E. reflexivity.
  - apply pass_parentIds.
Qed.

(** Tab never leaves the three panes: the conversion back from the
    wrapped number loses nothing. *)
Lemma tab_index_in_range (i : PaneIndex) (direction bounds : Z) :
  (direction = 1 \/ direction = -1) -> (bounds = 2 \/ bounds = 3) ->
  pane_to_Z (pane_of_Z (wrapAround (pane_to_Z i + direction) bounds)) =
  wrapAround (pane_to_Z i + direction) bounds.
Proof.
  intros [->| ->] [->| ->]; destruct i; reflexivity.
Qed.

(** C3 (amended). When [shouldShowIndirect] turns from true to false in a
    pass while the indirect pane is active, the pass leaves
    [parentIndex] at INDIRECT: no effect writes it, the third pane is
    only left out of the rendering.  The next Tab or Shift+Tab then
    moves to ACTION. *)
Theorem indirect_stays_active D D' R :
  parentIndex (nav R) = INDIRECT ->
  shouldShowIndirect D (nav R) = true ->
  shouldShowIndirect D' (nav (pass sel D' R)) = false ->
  parentIndex (nav (pass sel D' R)) = INDIRECT /\
  forall env shift,
    parentIndex
      (nav (after (handler sel env D' (pass sel D' R)
                     (mkKey "Tab" shift false false false)))) = ACTION.
Proof.
  intros Hidx _ Hhide.
  assert (Hkeep : parentIndex (nav (pass sel D' R)) = INDIRECT)
    by (rewrite pass_parentIndex; exact Hidx).
  split; [exact Hkeep|].
  intros env shift. unfold handler.
  cbn [key keyCase String.eqb Ascii.eqb Bool.eqb shiftKey after finished].
  rewrite Hhide, update_parentIndex. cbn [parentIndex setParentIndex].
  rewrite Hkeep. destruct shift; reflexivity.
Qed.

(** ** Keys with a modifier *)

Lemma keyCase_default (k : string) :
  k <> "Tab"%string -> k <> "ArrowRight"%string -> k <> "ArrowLeft"%string ->
  k <> "ArrowUp"%string -> k <> "ArrowDown"%string -> k <> "Enter"%string ->
  k <> "Backspace"%string -> keyCase k = CaseDefault.
Proof.
  intros H1 H2 H3 H4 H5 H6 H7. unfold keyCase.
  repeat match goal with
         | H : k <> ?c |- context [String.eqb k ?c] =>
             rewrite (proj2 (String.eqb_neq k c) H)
         end.
  reflexivity.
Qed.

(** C6 (amended). A key press with Meta, Ctrl or Alt held changes nothing
    and is not consumed, provided the key is none of Tab, ArrowRight,
    ArrowLeft, ArrowUp, ArrowDown, Enter and Backspace: the guard stands
    in the default case of the switch only. *)
Theorem modifier_ignored_in_default_case env D R event :
  metaKey event || ctrlKey event || altKey event = true ->
  key event <> "Tab"%string -> key event <> "ArrowRight"%string ->
  key event <> "ArrowLeft"%string -> key event <> "ArrowUp"%string ->
  key event <> "ArrowDown"%string -> key event <> "Enter"%string ->
  key event <> "Backspace"%string ->
  handler sel env D R event = finished R false.
Proof.
  intros Hmod H1 H2 H3 H4 H5 H6 H7. unfold handler.
  rewrite (keyCase_default _ H1 H2 H3 H4 H5 H6 H7), Hmod. reflexivity.
Qed.

(** ** ArrowRight and ArrowLeft *)

(** ArrowRight on a selected row without children changes nothing. *)
Lemma arrowRight_leaf env D R event item :
  key event = "ArrowRight"%string ->
  findById (get3 (parentIndex (nav R)) (childIds (nav R)))
    (filteredListItems sel D (nav R) (parentIndex (nav R))) = Some item ->
  hasChildren item = false ->
  handler sel env D R event = finished R true.
Proof.
  intros K Hf Hc. unfold handler. rewrite K. cbn [keyCase String.eqb
    Ascii.eqb Bool.eqb]. rewrite Hf, Hc. reflexivity.
Qed.

(** ArrowLeft on a pane whose parent id is [null] changes nothing. *)
Lemma arrowLeft_at_root env D R event :
  key event = "ArrowLeft"%string ->
  get3 (parentIndex (nav R)) (parentIds (nav R)) = JNull ->
  handler sel env D R event = finished R true.
Proof.
  intros K Hp. unfold handler. rewrite K. cbn [keyCase String.eqb
    Ascii.eqb Bool.eqb]. rewrite Hp. reflexivity.
Qed.

(** ArrowRight when no row of the filtered list carries the selected id:
    [item] is [undefined] and reading [item.hasChildren] throws. *)
Lemma arrowRight_no_item env D R event :
  key event = "ArrowRight"%string ->
  findById (get3 (parentIndex (nav R)) (childIds (nav R)))
    (filteredListItems sel D (nav R) (parentIndex (nav R))) = None ->
  handler sel env D R event = mkOutcome R true [] false (Rejected TypeError).
Proof.
  intros K Hf. unfold handler. rewrite K. cbn [keyCase String.eqb
    Ascii.eqb Bool.eqb]. rewrite Hf. reflexivity.
Qed.

Lemma filtered_noData s i : filteredListItems sel noData s i = [].
Proof.
  unfold filteredListItems.
  replace (dataOf noData i) with (@nil Item) by (destruct i; reflexivity).
  apply matchSorter_nil.
Qed.

Lemma mount_component :
  component (mount sel) =
  mkR initialNav (Some (depsOf sel noData initialNav)).
Proof.
  unfold mount; cbn [component]. unfold pass, nestedUpdateLimit.
  cbn [settle].
  assert (E : commit sel noData (mkR initialNav None)
              = mkR initialNav (Some (depsOf sel noData initialNav))).
  { unfold commit; cbn [nav lastDeps]. f_equal.
    unfold runEffects, depsOf, firstChildListItemId.
    rewrite !filtered_noData. reflexivity. }
  rewrite E. cbn [nav]. rewrite bool_decide_eq_true_2; reflexivity.
Qed.

(** C7 (the failing input). Right after mounting, before any list has
    arrived, ArrowRight consumes the event and then throws a TypeError:
    nothing is selected, [find] returns [undefined]. *)
Theorem arrowRight_throws_before_data env :
  handler sel env noData (component (mount sel)) (plainKey "ArrowRight") =
  mkOutcome (component (mount sel)) true [] false (Rejected TypeError).
Proof.
  apply arrowRight_no_item; [reflexivity|].
  rewrite filtered_noData. reflexivity.
Qed.

(** ** Enter *)

(** [api] returns exactly when a response arrives whose body parses and
    whose [ok] flag is set; in every other case it throws. *)
Lemma api_returns_iff env fragment cfg json :
  api env fragment cfg = ApiReturn json <->
  fetch env (mkRequest ("http://localhost:8080" ++ fragment) cfg)
  = FetchResponse true (Some json).
Proof.
  unfold api.
  destruct (fetch env _) as [|ok [j|]]; [split; discriminate| |].
  - destruct ok; cbn; split; intros H; inversion H; reflexivity.
  - split; discriminate.
Qed.

(** C8. When Enter is pressed and the execute call fails (the request is
    rejected, the body does not parse, or the response is not [ok]), the
    handler stops there: [window.app.hide()] is not called and the state
    is untouched.  The window is asked to hide only after [api] returned.
    One request is sent either way. *)
Theorem enter_hides_only_on_success env D R event :
  key event = "Enter"%string ->
  let executed :=
    api env "/execute-command"
      (Some (mkConfig "post"
               (mkBody (get3 DIRECT (childIds (nav R)))
                       (get3 ACTION (childIds (nav R)))
                       (get3 INDIRECT (childIds (nav R)))))) in
  let o := handler sel env D R event in
  (forall e, executed = ApiThrow e ->
             hideRequested o = false /\ completion o = Rejected e /\
             after o = R) /\
  (hideRequested o = true -> exists json, executed = ApiReturn json) /\
  length (requests o) = 1%nat.
Proof.
  intros K executed o. subst o. unfold handler. rewrite K.
  cbn [keyCase String.eqb Ascii.eqb Bool.eqb]. fold executed.
  destruct executed as [json|e0];
    cbn [hideRequested completion after requests length].
  - split; [intros e He; discriminate|].
    split; [intros _; eauto|reflexivity].
  - split; [intros e He; injection He as <-; auto|].
    split; [discriminate|reflexivity].
Qed.

(** ** Typing a character *)

Lemma update_settled D upd R :
  settled sel D R -> settled sel D (update sel D upd R).
Proof.
  intros H. unfold update. case_bool_decide; [exact H|apply pass_settled].
Qed.

Lemma update_filter_cases D upd R i :
  get3 i (filterTexts (nav (update sel D upd R))) = ""%string \/
  get3 i (filterTexts (nav (update sel D upd R))) =
  get3 i (filterTexts (upd (nav R))).
Proof.
  unfold update. case_bool_decide as E.
  - right. rewrite E. reflexivity.
  - apply (pass_filter_cases D (mkR (upd (nav R)) (lastDeps R)) i).
Qed.

(** An update that keeps the parent ids of a settled component keeps the
    filter text it wrote for the direct pane. *)
Lemma update_filter_direct_kept D upd R :
  settled sel D R ->
  parentIds (upd (nav R)) = parentIds (nav R) ->
  get3 DIRECT (filterTexts (nav (update sel D upd R))) =
  get3 DIRECT (filterTexts (upd (nav R))).
Proof.
  intros Hs Hp. unfold update. case_bool_decide as E.
  - rewrite E. reflexivity.
  - apply (pass_filter_direct_kept D (mkR (upd (nav R)) (lastDeps R))).
    unfold quiet; cbn [lastDeps nav].
    rewrite (settled_lastDeps D R Hs). unfold changed, depsOf.
    cbn [directParentId]. rewrite Hp.
    rewrite bool_decide_eq_true_2; reflexivity.
Qed.

Lemma update_followsFirst D upd R i :
  childIds (upd (nav R)) = childIds (nav R) ->
  followsFirst R i -> followsFirst (update sel D upd R) i.
Proof.
  intros Hc Hf. unfold update. case_bool_decide; [exact Hf|].
  apply pass_selectionRule. intros d Hd Ht HP. cbn [nav lastDeps] in *.
  rewrite Hc. apply Hf; assumption.
Qed.

(** The default case of the switch for a key without modifier that
    [includes] accepts: the parent id is set to the catalog id, then the
    lowercased key is appended. *)
Lemma handler_typing env D R k :
  keyCase k = CaseDefault ->
  includes alphanumerics (toLowerCase k) = true ->
  after (handler sel env D R (plainKey k)) =
  update sel D
    (fun s' => setFilterText (parentIndex (nav R))
                 (get3 (parentIndex (nav R)) (filterTexts s')
                  ++ toLowerCase k) s')
    (update sel D (setParentId (parentIndex (nav R)) (JStr itemCatalogId)) R).
Proof.
  intros K Hin. unfold handler.
  cbn [key plainKey metaKey ctrlKey altKey orb]. rewrite K, Hin.
  reflexivity.
Qed.

(** Typing on a settled component whose active pane is the direct one,
    with an empty filter text and a selection made by the effect. *)
Lemma typing_on_settled env D R k :
  settled sel D R ->
  parentIndex (nav R) = DIRECT ->
  get3 DIRECT (filterTexts (nav R)) = ""%string ->
  followsFirst R DIRECT ->
  keyCase k = CaseDefault ->
  includes alphanumerics (toLowerCase k) = true ->
  let R' := after (handler sel env D R (plainKey k)) in
  settled sel D R' /\ followsFirst R' DIRECT /\
  get3 DIRECT (filterTexts (nav R')) = toLowerCase k /\
  get3 DIRECT (parentIds (nav R')) = JStr itemCatalogId.
Proof.
  intros Hset Hidx Hfil Hfol K Hin R'. subst R'.
  rewrite (handler_typing env D R k K Hin), Hidx.
  pose proof (update_parentIds D (setParentId DIRECT (JStr itemCatalogId)) R)
    as Hpar1.
  pose proof (update_filter_cases D
                (setParentId DIRECT (JStr itemCatalogId)) R DIRECT) as Hfil1.
  pose proof (update_settled D (setParentId DIRECT (JStr itemCatalogId)) R
                Hset) as Hset1.
  pose proof (update_followsFirst D
                (setParentId DIRECT (JStr itemCatalogId)) R DIRECT
                eq_refl Hfol) as Hfol1.
  revert Hpar1 Hfil1 Hset1 Hfol1.
  generalize (update sel D (setParentId DIRECT (JStr itemCatalogId)) R).
  intros R1 Hpar1 Hfil1 Hset1 Hfol1.
  assert (Hfil1' : get3 DIRECT (filterTexts (nav R1)) = ""%string).
  { destruct Hfil1 as [E|E]; rewrite E; [reflexivity|exact Hfil]. }
  clear Hfil1.
  pose (upd := fun s' : NavState =>
                 setFilterText DIRECT
                   (get3 DIRECT (filterTexts s') ++ toLowerCase k) s').
  pose proof (update_parentIds D upd R1) as Hpar2.
  pose proof (update_filter_direct_kept D upd R1 Hset1 eq_refl) as Hfil2.
  pose proof (update_settled D upd R1 Hset1) as Hset2.
  pose proof (update_followsFirst D upd R1 DIRECT eq_refl Hfol1) as Hfol2.
  fold upd.
  revert Hpar2 Hfil2 Hset2 Hfol2. generalize (update sel D upd R1).
  intros R2 Hpar2 Hfil2 Hset2 Hfol2.
  split; [exact Hset2|]. split; [exact Hfol2|]. split.
  - rewrite Hfil2. unfold upd. cbn [setFilterText filterTexts set3 get3 at0].
    change (at0 (filterTexts (nav R1)))
      with (get3 DIRECT (filterTexts (nav R1))).
    rewrite Hfil1'. reflexivity.
  - rewrite Hpar2. unfold upd. cbn [setFilterText parentIds].
    rewrite Hpar1. reflexivity.
Qed.

(** On a settled component that still follows its first item, the
    selection of the direct pane is the first filtered id when that id
    is truthy. *)
Lemma settled_follows_first D R t :
  settled sel D R -> followsFirst R DIRECT ->
  get3 DIRECT (filterTexts (nav R)) = t ->
  let f := firstId (matchSorter sel (dataOf D DIRECT) t
                      ["name"; "details"]%string) in
  truthy f = true -> get3 DIRECT (childIds (nav R)) = f.
Proof.
  intros Hset Hfol Ht f Htr. subst f.
  specialize (Hfol _ (settled_lastDeps D R Hset)).
  rewrite firstOf_depsOf in Hfol.
  unfold firstChildListItemId, filteredListItems in Hfol.
  rewrite Ht in Hfol. apply Hfol; [exact Htr|exact I].
Qed.

Lemma run_two env e1 e2 :
  run sel env [e1; e2] = step sel env (step sel env (mount sel) e1) e2.
Proof. reflexivity. Qed.

Lemma run_snoc env evs ev :
  run sel env (evs ++ [ev])%list = step sel env (run sel env evs) ev.
Proof. unfold run. rewrite fold_left_app. reflexivity. Qed.

Lemma step_Fetched env a D :
  step sel env a (Fetched D) = mkApp D (pass sel D (component a)).
Proof. reflexivity. Qed.

Lemma step_KeyDown env D R event :
  step sel env (mkApp D R) (KeyDown event) =
  mkApp D (after (handler sel env D R event)).
Proof. reflexivity. Qed.

(** The component after the root list arrived and "s" was typed. *)
Lemma typed_s_component env D :
  let R' := component (run sel env [Fetched D; KeyDown (plainKey "s")]) in
  settled sel D R' /\ followsFirst R' DIRECT /\
  get3 DIRECT (filterTexts (nav R')) = "s"%string /\
  get3 DIRECT (parentIds (nav R')) = JStr itemCatalogId.
Proof.
  intros R'. subst R'.
  rewrite run_two, step_Fetched, step_KeyDown. cbn [component].
  apply (typing_on_settled env D (pass sel D (component (mount sel))) "s").
  - apply pass_settled.
  - rewrite pass_parentIndex, mount_component. reflexivity.
  - destruct (pass_filter_cases D (component (mount sel)) DIRECT)
      as [E|E]; rewrite E; [reflexivity|].
    rewrite mount_component. reflexivity.
  - apply pass_selectionRule. rewrite mount_component.
    intros d [= <-] Ht _. exfalso. rewrite firstOf_depsOf in Ht.
    unfold firstChildListItemId in Ht. rewrite filtered_noData in Ht.
    discriminate.
  - reflexivity.
  - reflexivity.
Qed.

(** C2 (amended). From the initial state, once the root list has arrived,
    pressing "s" leaves the direct pane with filter text "s"; its parent
    id is no longer [null] but the catalog id, under which the direct
    query fetches the url it fetched before; and when the list filtered
    by "s" starts with an item of non-empty id, that id is selected. *)
Theorem typing_s_at_root env D :
  let a := run sel env [Fetched D; KeyDown (plainKey "s")] in
  let s := nav (component a) in
  let f := firstId (matchSorter sel (dataOf D DIRECT) "s"
                      ["name"; "details"]%string) in
  get3 DIRECT (filterTexts s) = "s"%string /\
  get3 DIRECT (parentIds s) = JStr itemCatalogId /\
  queryUrl s DIRECT = queryUrl initialNav DIRECT /\
  (truthy f = true -> get3 DIRECT (childIds s) = f).
Proof.
  intros a s f. subst f s a.
  destruct (typed_s_component env D) as (Hset & Hfol & Hfil & Hpar).
  split; [exact Hfil|]. split; [exact Hpar|]. split.
  - unfold queryUrl. rewrite Hpar. reflexivity.
  - apply (settled_follows_first D _ "s" Hset Hfol Hfil).
Qed.

(** The same holds when the list of the direct pane is delivered again
    after the key press (the query key changed with the parent id): the
    filter text stays, and the first match in the new list is selected. *)
Lemma typing_s_then_refetch env D D' :
  let a := run sel env [Fetched D; KeyDown (plainKey "s"); Fetched D'] in
  let s := nav (component a) in
  let f := firstId (matchSorter sel (dataOf D' DIRECT) "s"
                      ["name"; "details"]%string) in
  get3 DIRECT (filterTexts s) = "s"%string /\
  get3 DIRECT (parentIds s) = JStr itemCatalogId /\
  (truthy f = true -> get3 DIRECT (childIds s) = f).
Proof.
  intros a s f. subst f s a.
  change [Fetched D; KeyDown (plainKey "s"); Fetched D']
    with ([Fetched D; KeyDown (plainKey "s")] ++ [Fetched D'])%list.
  rewrite run_snoc, step_Fetched. cbn [component].
  destruct (typed_s_component env D) as (Hset & Hfol & Hfil & Hpar).
  revert Hset Hfol Hfil Hpar.
  generalize (component (run sel env [Fetched D; KeyDown (plainKey "s")])).
  intros R Hset Hfol Hfil Hpar.
  assert (Hq : quiet sel D' R directParentId).
  { unfold quiet. rewrite (settled_lastDeps D R Hset).
    unfold changed, depsOf. cbn [directParentId].
    rewrite bool_decide_eq_true_2; reflexivity. }
  assert (Hfil' : get3 DIRECT (filterTexts (nav (pass sel D' R)))
                  = "s"%string)
    by (rewrite (pass_filter_direct_kept D' R Hq); exact Hfil).
  split; [exact Hfil'|]. split.
  - rewrite pass_parentIds. exact Hpar.
  - apply (settled_follows_first D' _ "s"); [apply pass_settled| |exact Hfil'].
    apply pass_selectionRule, Hfol.
Qed.

(** ** The filter reads [name] and [details] *)

Lemma omap_lookup_length {A B} (l : list A) (l' : list B) (ks : list nat) :
  length l = length l' ->
  length (omap (fun k => l !! k) ks) = length (omap (fun k => l' !! k) ks).
Proof.
  intros Hlen. induction ks as [|k ks IH]; [reflexivity|]. cbn.
  destruct (l !! k) as [x|] eqn:E.
  - destruct (lookup_lt_is_Some_2 l' k) as [y Hy].
    { rewrite <- Hlen. eapply lookup_lt_Some, E. }
    rewrite Hy. cbn. f_equal. exact IH.
  - rewrite (lookup_ge_None_2 l' k); [exact IH|].
    rewrite <- Hlen. apply lookup_ge_None_1, E.
Qed.

(** Lists that agree on the listed keys get the same positions kept. *)
Lemma matchSorter_same_rows items items' value keys :
  map (fun it => map (prop it) keys) items =
  map (fun it => map (prop it) keys) items' ->
  length (matchSorter sel items value keys) =
  length (matchSorter sel items' value keys).
Proof.
  intros H. unfold matchSorter. rewrite H. apply omap_lookup_length.
  rewrite <- (length_map (fun it => map (prop it) keys) items), H.
  apply length_map.
Qed.

(** C4 (the failing input). With the text "foo", an item whose [detail]
    is "foo" and an item whose [detail] is "bar", alike in [name], are
    both kept or both dropped, whatever the matching of the package:
    the keys handed to it are [name] and [details], and [detail] is never
    read. *)
Theorem detail_is_not_searched :
  let s := setFilterText DIRECT "foo" initialNav in
  length (filteredListItems sel (mkArr3 (Some [fooInDetail]) None None)
            s DIRECT) =
  length (filteredListItems sel (mkArr3 (Some [barInDetail]) None None)
            s DIRECT).
Proof.
  cbn zeta. unfold filteredListItems.
  apply matchSorter_same_rows. reflexivity.
Qed.

(** * Further properties of the cascade *)

Lemma iter_filter_cases D R i n :
  get3 i (filterTexts (nav (Nat.iter n (commit sel D) R))) = ""%string \/
  get3 i (filterTexts (nav (Nat.iter n (commit sel D) R))) =
  get3 i (filterTexts (nav R)).
Proof.
  induction n as [|n IH]; [auto|].
  rewrite Nat.iter_succ.
  destruct (commit_filter_cases D (Nat.iter n (commit sel D) R) i)
    as [E|E]; [auto|].
  rewrite E. exact IH.
Qed.

(** X1. Whatever the state and the query results, the cascade of effects
    is over after at most seven renders: more fuel changes nothing, and
    the state reached is left alone by a further render.  The limit of
    50 nested updates is never met. *)
Theorem cascade_settles_within_seven D R k :
  settle sel (7 + k) D R = settle sel 7 D R /\
  pass sel D R = settle sel 7 D R /\
  settled sel D (settle sel 7 D R).
Proof.
  assert (H7 : settled sel D (settle sel 7 D R))
    by (rewrite settle_iter; apply seven_commits_settle).
  split; [|split; [|exact H7]].
  - rewrite (settle_iter (7 + k)), Nat.add_comm, Nat.iter_add.
    rewrite <- (settle_iter 7). apply iter_settled, H7.
  - rewrite pass_seven, settle_iter. reflexivity.
Qed.

(** A pass writes to a selection nothing but the truthy first id of the
    filtered list, the id of a fetched item. *)
Lemma commit_child_cases D R i :
  get3 i (childIds (nav (commit sel D R))) = get3 i (childIds (nav R)) \/
  (truthy (get3 i (childIds (nav (commit sel D R)))) = true /\
   selectedAmong (nav (commit sel D R)) i (dataOf D i)).
Proof.
  unfold selectedAmong. cbn [nav commit].
  destruct (runEffects_child_cases (lastDeps R) (depsOf sel D (nav R))
              (nav R) i) as [[Ht E]|[E _]]; rewrite E; [right|left; reflexivity].
  split; [exact Ht|]. rewrite firstOf_depsOf in *.
  apply first_among_fetched, Ht.
Qed.

(** X2. A pass leaves [parentIndex] and [parentIds] as they are, writes
    nothing but the empty string to a filter text, and writes to a
    selection nothing but the non-empty id of an item of the fetched list
    of that pane: it never stores [null] or [undefined]. *)
Theorem pass_writes D R :
  parentIndex (nav (pass sel D R)) = parentIndex (nav R) /\
  parentIds (nav (pass sel D R)) = parentIds (nav R) /\
  forall i,
    (get3 i (filterTexts (nav (pass sel D R))) = ""%string \/
     get3 i (filterTexts (nav (pass sel D R))) =
     get3 i (filterTexts (nav R))) /\
    (get3 i (childIds (nav (pass sel D R))) = get3 i (childIds (nav R)) \/
     (truthy (get3 i (childIds (nav (pass sel D R)))) = true /\
      selectedAmong (nav (pass sel D R)) i (dataOf D i))).
Proof.
  split; [apply pass_parentIndex|]. split; [apply pass_parentIds|].
  intros i. split; [apply pass_filter_cases|].
  rewrite pass_seven. generalize 7%nat. intros n.
  induction n as [|n IH]; [left; reflexivity|].
  rewrite Nat.iter_succ.
  destruct (commit_child_cases D (Nat.iter n (commit sel D) R) i)
    as [E|E]; [|right; exact E].
  rewrite E. destruct IH as [IH|IH]; [left; exact IH|right].
  unfold selectedAmong in *. rewrite E. exact IH.
Qed.

(** ** Resets that follow a change *)

(** A filter text whose effect watches [w] is empty after a pass at the
    end of which [w] differs from its value at the last commit before
    the pass, whenever in the pass the change came about. *)
Lemma watched_reset (w : Deps -> JsVal) (j : PaneIndex) :
  (forall last cur s,
      changed last cur w = true ->
      get3 j (filterTexts (runEffects last cur s)) = ""%string) ->
  forall D R d,
    lastDeps R = Some d ->
    w (depsOf sel D (nav (pass sel D R))) <> w d ->
    get3 j (filterTexts (nav (pass sel D R))) = ""%string.
Proof.
  intros Hclear D R d Hd Hne.
  destruct (decide (get3 j (filterTexts (nav (pass sel D R))) = ""%string))
    as [E|Hnz]; [exact E|].
  exfalso. apply Hne.
  assert (J : forall n,
             get3 j (filterTexts (nav (Nat.iter n (commit sel D) R)))
             <> ""%string ->
             exists d', lastDeps (Nat.iter n (commit sel D) R) = Some d'
                        /\ w d' = w d).
  { induction n as [|n IH]; [intros _; exists d; auto|].
    rewrite Nat.iter_succ. set (X := Nat.iter n (commit sel D) R) in *.
    intros Hk. exists (depsOf sel D (nav X)). split; [reflexivity|].
    destruct (changed (lastDeps X) (depsOf sel D (nav X)) w) eqn:Ch.
    - exfalso. apply Hk. cbn [nav commit]. apply Hclear, Ch.
    - apply changed_false in Ch as (d1 & Hd1 & Hw). rewrite <- Hw.
      destruct (commit_filter_cases D X j) as [E|E]; [contradiction|].
      rewrite E in Hk. destruct (IH Hk) as (d' & Hd' & Hw').
      congruence. }
  pose proof (settled_lastDeps D _ (pass_settled D R)) as Hlast.
  rewrite pass_seven in *. destruct (J 7%nat Hnz) as (d' & Hd' & Hw').
  congruence.
Qed.

(** X3. After a pass: if the parent id of the direct (indirect) pane is
    not the one of the last commit before the pass, the filter text of
    that pane is empty; if the selection of the direct pane is not the
    one of that commit, the filter text of the action pane is empty; if
    the selection of the action pane is not, the filter text of the
    indirect pane is empty.  The selection may have changed anywhere in
    the cascade. *)
Theorem change_resets_filter D R d :
  lastDeps R = Some d ->
  let s := nav (pass sel D R) in
  (get3 DIRECT (parentIds s) <> directParentId d ->
   get3 DIRECT (filterTexts s) = ""%string) /\
  (get3 INDIRECT (parentIds s) <> indirectParentId d ->
   get3 INDIRECT (filterTexts s) = ""%string) /\
  (get3 DIRECT (childIds s) <> directChildId d ->
   get3 ACTION (filterTexts s) = ""%string) /\
  (get3 ACTION (childIds s) <> actionChildId d ->
   get3 INDIRECT (filterTexts s) = ""%string).
Proof.
  intros Hd s. subst s. repeat split; intros Hne.
  - apply (watched_reset directParentId DIRECT) with (d := d);
      [|exact Hd|exact Hne].
    intros last cur s H. rewrite runEffects_filter_direct, H. reflexivity.
  - apply (watched_reset indirectParentId INDIRECT) with (d := d);
      [|exact Hd|exact Hne].
    intros last cur s H. rewrite runEffects_filter_indirect, H. reflexivity.
  - apply (watched_reset directChildId ACTION) with (d := d);
      [|exact Hd|exact Hne].
    intros last cur s H. rewrite runEffects_filter_action, H. reflexivity.
  - apply (watched_reset actionChildId INDIRECT) with (d := d);
      [|exact Hd|exact Hne].
    intros last cur s H. rewrite runEffects_filter_indirect, H.
    rewrite orb_true_r. reflexivity.
Qed.

(** ** Panes that the cascade leaves alone *)

Lemma calm_commit D R i : calm sel D R i -> calm sel D (commit sel D R) i.
Proof.
  destruct i; cbn [calm].
  - intros _. apply quiet_parents.
  - intros (H1 & H2 & H3). split; [apply quiet_parents|].
    split; [apply quiet_first_direct, H1|apply quiet_child_direct, H2].
  - intros (H1 & H2 & H3 & H4 & H5 & H6).
    split; [apply quiet_parents|]. split; [apply quiet_parents|].
    split; [apply quiet_first_direct, H1|].
    split; [apply quiet_child_direct, H3|].
    split; [apply quiet_first_action, H4|].
    apply quiet_child_action; assumption.
Qed.

Lemma calm_commit_filter D R i :
  calm sel D R i ->
  get3 i (filterTexts (nav (commit sel D R))) = get3 i (filterTexts (nav R)).
Proof.
  unfold commit; cbn [nav]. destruct i; cbn [calm]; unfold quiet.
  - intros H. rewrite runEffects_filter_direct, H. reflexivity.
  - intros (_ & _ & H). rewrite runEffects_filter_action, H. reflexivity.
  - intros (_ & H2 & _ & _ & _ & H6).
    rewrite runEffects_filter_indirect, H2, H6. reflexivity.
Qed.

Lemma calm_pass_filter D R i :
  calm sel D R i ->
  get3 i (filterTexts (nav (pass sel D R))) = get3 i (filterTexts (nav R)).
Proof.
  rewrite pass_seven. generalize 7%nat. intros n. revert R.
  induction n as [|n IH]; intros R H; [reflexivity|].
  rewrite Nat.iter_succ_r, IH by apply calm_commit, H.
  apply calm_commit_filter, H.
Qed.

Lemma steady_commit D R i :
  steady sel D R i -> steady sel D (commit sel D R) i.
Proof.
  intros [Hc Hq]. split; [apply calm_commit, Hc|].
  destruct i; cbn [calm firstOf] in *.
  - apply quiet_first_direct, Hc.
  - apply quiet_first_action, Hc.
  - destruct Hc as (_ & H2 & _ & _ & _ & H6).
    apply quiet_first_indirect; assumption.
Qed.

Lemma steady_commit_child D R i :
  steady sel D R i ->
  get3 i (childIds (nav (commit sel D R))) = get3 i (childIds (nav R)).
Proof.
  unfold commit; cbn [nav]. intros [Hc Hq].
  destruct i; cbn [calm firstOf] in *; unfold quiet in *.
  - rewrite runEffects_child_direct, Hq. reflexivity.
  - destruct Hc as (_ & H2 & H3).
    rewrite runEffects_child_action, Hq, H2, H3. reflexivity.
  - destruct Hc as (_ & _ & H3 & _ & _ & H6).
    rewrite runEffects_child_indirect, Hq, H3, H6. reflexivity.
Qed.

Lemma steady_pass_child D R i :
  steady sel D R i ->
  get3 i (childIds (nav (pass sel D R))) = get3 i (childIds (nav R)).
Proof.
  rewrite pass_seven. generalize 7%nat. intros n. revert R.
  induction n as [|n IH]; intros R H; [reflexivity|].
  rewrite Nat.iter_succ_r, IH by apply steady_commit, H.
  apply steady_commit_child, H.
Qed.

(** After an update of a settled component, a dependency that the update
    does not touch is quiet. *)
Lemma quiet_after_upd D R upd (w : Deps -> JsVal) :
  settled sel D R ->
  w (depsOf sel D (upd (nav R))) = w (depsOf sel D (nav R)) ->
  quiet sel D (mkR (upd (nav R)) (lastDeps R)) w.
Proof.
  intros Hs Hw. unfold quiet; cbn [nav lastDeps].
  rewrite (settled_lastDeps D R Hs). unfold changed.
  rewrite bool_decide_eq_true_2; auto.
Qed.

Lemma steady_after_setChildId D R i v :
  settled sel D R ->
  steady sel D (mkR (setChildId i v (nav R)) (lastDeps R)) i.
Proof.
  intros Hs. destruct i; unfold steady; cbn [calm firstOf];
    repeat split; apply (quiet_after_upd D R); auto.
Qed.

(** Selecting a row on a component at rest: the selection stays, and the
    filter text, hence the filtered list, of the pane is the same. *)
Lemma update_choose_row D R i v :
  settled sel D R ->
  let R' := update sel D (setChildId i v) R in
  get3 i (childIds (nav R')) = v /\
  filteredListItems sel D (nav R') i = filteredListItems sel D (nav R) i /\
  parentIndex (nav R') = parentIndex (nav R).
Proof.
  intros Hs R'. subst R'.
  assert (Hv : get3 i (childIds (setChildId i v (nav R))) = v)
    by (destruct i; reflexivity).
  split; [|split].
  - unfold update. case_bool_decide as E; [rewrite <- E; exact Hv|].
    rewrite (steady_pass_child D (mkR (setChildId i v (nav R)) (lastDeps R)) i)
      by apply steady_after_setChildId, Hs.
    exact Hv.
  - unfold filteredListItems. f_equal.
    unfold update. case_bool_decide as E; [reflexivity|].
    rewrite (calm_pass_filter D (mkR (setChildId i v (nav R)) (lastDeps R)) i)
      by apply steady_after_setChildId, Hs.
    reflexivity.
  - rewrite update_parentIndex. reflexivity.
Qed.

(** X4. ArrowUp or ArrowDown on a component at rest whose active pane
    shows a non-empty list: the row at the wrapped position next to the
    selected one (the first row when the selection is not in the list
    and the key is ArrowDown) becomes the selection of the active pane,
    and stays it through the cascade; the list shown is the same. *)
Theorem arrow_selects_shown_row env D R event :
  settled sel D R ->
  keyCase (key event) = CaseArrowUp \/ keyCase (key event) = CaseArrowDown ->
  let idx := parentIndex (nav R) in
  let items := filteredListItems sel D (nav R) idx in
  items <> [] ->
  let R' := after (handler sel env D R event) in
  let k := wrapAround
             (findIndexById (get3 idx (childIds (nav R))) items
              + (if String.eqb (key event) "ArrowUp" then -1 else 1))
             (Z.of_nat (length items)) in
  parentIndex (nav R') = idx /\
  filteredListItems sel D (nav R') idx = items /\
  exists it, itemAt items k = Some it /\ In it items /\
             get3 idx (childIds (nav R')) = JStr (id it).
Proof.
  intros Hs K idx items Hne R' k.
  destruct (itemAt_wrapAround items
              (findIndexById (get3 idx (childIds (nav R))) items
               + (if String.eqb (key event) "ArrowUp" then -1 else 1)) Hne)
    as (it & Hit & Hin).
  assert (HR : R' = update sel D (setChildId idx (JStr (id it))) R).
  { subst R'. unfold handler. fold idx. fold items.
    destruct K as [K|K]; rewrite K; cbn [after finished]; rewrite Hit;
      reflexivity. }
  destruct (update_choose_row D R idx (JStr (id it)) Hs) as (H1 & H2 & H3).
  rewrite HR. split; [exact H3|]. split; [exact H2|].
  exists it. split; [exact Hit|]. split; [exact Hin|exact H1].
Qed.

(** X5. A click on row [k] of the list shown by a component at rest makes
    that row the selection of the active pane; the list shown and the
    active pane are the same afterwards. *)
Theorem click_selects_row env D R k item :
  settled sel D R ->
  let idx := parentIndex (nav R) in
  filteredListItems sel D (nav R) idx !! k = Some item ->
  let R' := component (step sel env (mkApp D R) (ClickItem k)) in
  get3 idx (childIds (nav R')) = JStr (id item) /\
  filteredListItems sel D (nav R') idx = filteredListItems sel D (nav R) idx /\
  parentIndex (nav R') = idx.
Proof.
  intros Hs idx Hk R'. subst R'. cbn [step itemsQueries component].
  fold idx. rewrite Hk. cbn [component].
  apply (update_choose_row D R idx (JStr (id item)) Hs).
Qed.

(** ** Drilling in and out *)

Lemma set3_get3 {A} (i : PaneIndex) (x : A) (a : Arr3 A) :
  get3 i (set3 i x a) = x.
Proof. destruct i; reflexivity. Qed.

Lemma set3_same {A} (i : PaneIndex) (a : Arr3 A) : set3 i (get3 i a) a = a.
Proof. destruct i, a; reflexivity. Qed.

Lemma findById_Some v items it :
  findById v items = Some it -> v = JStr (id it) /\ In it items.
Proof.
  unfold findById. intros H. apply find_some in H as [Hin Hb].
  apply bool_decide_eq_true in Hb. auto.
Qed.

(** A pass that starts with a changed parent id clears the filter text
    of that pane. *)
Lemma pass_clears_changed_parent D R i :
  i <> ACTION ->
  changed (lastDeps R) (depsOf sel D (nav R))
    (match i with INDIRECT => indirectParentId | _ => directParentId end)
  = true ->
  get3 i (filterTexts (nav (pass sel D R))) = ""%string.
Proof.
  intros Hi Hch. rewrite pass_seven. change 7%nat with (S 6).
  rewrite Nat.iter_succ_r.
  assert (E : get3 i (filterTexts (nav (commit sel D R))) = ""%string).
  { unfold commit; cbn [nav]. destruct i; [|contradiction|].
    - rewrite runEffects_filter_direct, Hch. reflexivity.
    - rewrite runEffects_filter_indirect, Hch. reflexivity. }
  destruct (iter_filter_cases D (commit sel D R) i 6) as [F|F];
    rewrite F; [reflexivity|exact E].
Qed.

Lemma update_setParentId D R i v :
  settled sel D R ->
  let R' := update sel D (setParentId i v) R in
  get3 i (parentIds (nav R')) = v /\
  parentIndex (nav R') = parentIndex (nav R) /\
  settled sel D R' /\
  (i <> ACTION -> get3 i (parentIds (nav R)) <> v ->
   get3 i (filterTexts (nav R')) = ""%string).
Proof.
  intros Hs R'. subst R'.
  split; [rewrite update_parentIds; apply set3_get3|].
  split; [rewrite update_parentIndex; reflexivity|].
  split; [apply update_settled, Hs|].
  intros Hi Hne. unfold update. case_bool_decide as E.
  - exfalso. apply Hne. rewrite <- E at 1. apply set3_get3.
  - apply pass_clears_changed_parent; [exact Hi|]. cbn [nav lastDeps].
    rewrite (settled_lastDeps D R Hs). unfold changed.
    apply negb_true_iff, bool_decide_eq_false.
    destruct i; [|contradiction|]; cbn; exact Hne.
Qed.

(** X6. ArrowRight on a component at rest whose selected row is shown and
    has children: the selected id becomes the parent id of the active
    pane and the event is consumed; if that changes the parent id and the
    pane is not the action pane, the filter text of the pane is empty
    afterwards. *)
Theorem arrowRight_drills_in env D R event item :
  settled sel D R ->
  key event = "ArrowRight"%string ->
  let idx := parentIndex (nav R) in
  let selected := get3 idx (childIds (nav R)) in
  findById selected (filteredListItems sel D (nav R) idx) = Some item ->
  hasChildren item = true ->
  let o := handler sel env D R event in
  defaultPrevented o = true /\
  completion o = Resolved /\
  get3 idx (parentIds (nav (after o))) = JStr (id item) /\
  parentIndex (nav (after o)) = idx /\
  (idx <> ACTION -> get3 idx (parentIds (nav R)) <> JStr (id item) ->
   get3 idx (filterTexts (nav (after o))) = ""%string).
Proof.
  intros Hs K idx selected Hf Hc o.
  destruct (findById_Some _ _ _ Hf) as [Hsel _].
  assert (Ho : o = finished (update sel D (setParentId idx (JStr (id item))) R)
                      true).
  { subst o. unfold handler. rewrite K.
    cbn [keyCase String.eqb Ascii.eqb Bool.eqb]. fold idx. fold selected.
    rewrite Hf, Hc, Hsel. reflexivity. }
  rewrite Ho. cbn [defaultPrevented completion after finished].
  destruct (update_setParentId D R idx (JStr (id item)) Hs)
    as (H1 & H2 & _ & H4).
  auto.
Qed.

(** X7. ArrowLeft on a component at rest whose active pane has a parent
    id: one request for that item is sent; when it fails the handler is
    rejected with the state untouched; when it returns, the parent id of
    the pane becomes the returned [parentId], or [null] when that is the
    catalog id, and if this changes the parent id of a pane other than
    the action pane, its filter text is empty afterwards. *)
Theorem arrowLeft_drills_out env D R event :
  settled sel D R ->
  key event = "ArrowLeft"%string ->
  let idx := parentIndex (nav R) in
  let parentId := get3 idx (parentIds (nav R)) in
  parentId <> JNull ->
  let fragment := ("/items/" ++ falsy_or parentId itemCatalogId)%string in
  let o := handler sel env D R event in
  defaultPrevented o = true /\
  requests o = [mkRequest ("http://localhost:8080" ++ fragment) None] /\
  (forall e, api env fragment None = ApiThrow e ->
             after o = R /\ completion o = Rejected e) /\
  (forall json, api env fragment None = ApiReturn json ->
     let target := if bool_decide (json_parentId json = JStr itemCatalogId)
                   then JNull else json_parentId json in
     completion o = Resolved /\
     get3 idx (parentIds (nav (after o))) = target /\
     parentIndex (nav (after o)) = idx /\
     (idx <> ACTION -> parentId <> target ->
      get3 idx (filterTexts (nav (after o))) = ""%string)).
Proof.
  intros Hs K idx parentId Hp fragment o. subst o. unfold handler.
  rewrite K. cbn [keyCase String.eqb Ascii.eqb Bool.eqb].
  fold idx. fold parentId. rewrite (bool_decide_eq_false_2 _ Hp).
  fold fragment.
  destruct (api env fragment None) as [json|e0];
    cbn [defaultPrevented requests after completion].
  - split; [reflexivity|]. split; [reflexivity|].
    split; [intros e He; discriminate|].
    intros json' Hj. injection Hj as <-. cbv zeta.
    destruct (update_setParentId D R idx
                (if bool_decide (json_parentId json = JStr itemCatalogId)
                 then JNull else json_parentId json) Hs)
      as (H1 & H2 & _ & H4).
    auto.
  - split; [reflexivity|]. split; [reflexivity|].
    split; [intros e [= <-]; auto|]. intros json' He. discriminate.
Qed.

(** ** Filter texts written by the handler *)

Lemma calm_after_setFilterText D R i t :
  settled sel D R ->
  calm sel D (mkR (setFilterText i t (nav R)) (lastDeps R)) i.
Proof.
  intros Hs. destruct i; cbn [calm]; repeat split;
    apply (quiet_after_upd D R); auto.
Qed.

Lemma calm_after_setParentId_action D R v :
  settled sel D R ->
  calm sel D (mkR (setParentId ACTION v (nav R)) (lastDeps R)) ACTION.
Proof.
  intros Hs. cbn [calm]; repeat split; apply (quiet_after_upd D R); auto.
Qed.

(** A filter text written on a component at rest survives the cascade. *)
Lemma update_filter_written D R i upd t :
  settled sel D R ->
  upd (nav R) = setFilterText i t (nav R) ->
  get3 i (filterTexts (nav (update sel D upd R))) = t.
Proof.
  intros Hs Hu.
  assert (Ht : get3 i (filterTexts (upd (nav R))) = t)
    by (rewrite Hu; apply set3_get3).
  unfold update. case_bool_decide as E; [rewrite <- E; exact Ht|].
  rewrite Hu.
  rewrite (calm_pass_filter D (mkR (setFilterText i t (nav R)) (lastDeps R)) i)
    by apply calm_after_setFilterText, Hs.
  apply set3_get3.
Qed.

(** X8. Backspace empties the filter text of the active pane and consumes
    the event; the active pane and the parent ids are as before. *)
Theorem backspace_clears_filter env D R event :
  key event = "Backspace"%string ->
  let idx := parentIndex (nav R) in
  let o := handler sel env D R event in
  defaultPrevented o = true /\
  get3 idx (filterTexts (nav (after o))) = ""%string /\
  parentIndex (nav (after o)) = idx /\
  parentIds (nav (after o)) = parentIds (nav R).
Proof.
  intros K idx o. subst o. unfold handler. rewrite K.
  cbn [keyCase String.eqb Ascii.eqb Bool.eqb defaultPrevented after finished].
  fold idx. split; [reflexivity|]. split; [|split].
  - destruct (update_filter_cases D (setFilterText idx "") R idx) as [E|E];
      rewrite E; [reflexivity|apply set3_get3].
  - rewrite update_parentIndex. reflexivity.
  - rewrite update_parentIds. reflexivity.
Qed.

Lemma typing_at_rest env D R k :
  settled sel D R ->
  typable k ->
  let idx := parentIndex (nav R) in
  let R' := after (handler sel env D R (plainKey k)) in
  let base :=
    if bool_decide (idx = ACTION)
       || bool_decide (get3 idx (parentIds (nav R)) = JStr itemCatalogId)
    then get3 idx (filterTexts (nav R)) else ""%string in
  settled sel D R' /\
  parentIndex (nav R') = idx /\
  get3 idx (parentIds (nav R')) = JStr itemCatalogId /\
  get3 idx (filterTexts (nav R')) = (base ++ toLowerCase k)%string.
Proof.
  intros Hs [K Hin] idx R' base. subst R'.
  rewrite (handler_typing env D R k K Hin). fold idx.
  destruct (update_setParentId D R idx (JStr itemCatalogId) Hs)
    as (Hp1 & Hi1 & Hs1 & Hc1).
  assert (Hf1 : get3 idx
                  (filterTexts
                     (nav (update sel D
                             (setParentId idx (JStr itemCatalogId)) R)))
                = base).
  { subst base.
    destruct (decide (get3 idx (parentIds (nav R)) = JStr itemCatalogId))
      as [Hc|Hc].
    - rewrite (bool_decide_eq_true_2 _ Hc), orb_true_r.
      unfold update. rewrite bool_decide_eq_true_2; [reflexivity|].
      unfold setParentId. rewrite <- Hc, set3_same. destruct (nav R);
        reflexivity.
    - rewrite (bool_decide_eq_false_2 _ Hc), orb_false_r.
      destruct (decide (idx = ACTION)) as [Ha|Ha].
      + rewrite (bool_decide_eq_true_2 _ Ha). rewrite Ha.
        unfold update. case_bool_decide; [reflexivity|].
        rewrite (calm_pass_filter D
                   (mkR (setParentId ACTION (JStr itemCatalogId) (nav R))
                        (lastDeps R)) ACTION)
          by apply calm_after_setParentId_action, Hs.
        reflexivity.
      + rewrite (bool_decide_eq_false_2 _ Ha). apply Hc1; assumption. }
  revert Hp1 Hi1 Hs1 Hf1. clear Hc1.
  generalize (update sel D (setParentId idx (JStr itemCatalogId)) R).
  intros R1 Hp1 Hi1 Hs1 Hf1.
  split; [apply update_settled, Hs1|].
  split; [rewrite update_parentIndex; exact Hi1|].
  split; [rewrite update_parentIds; exact Hp1|].
  rewrite <- Hf1. apply update_filter_written; [exact Hs1|reflexivity].
Qed.

(** X9. A typable key pressed without modifier on a component at rest:
    the parent id of the active pane becomes the catalog id, and the
    lowercased key is appended to the filter text of the pane, which is
    first emptied when the parent id changes and the pane is not the
    action pane.  The component is at rest again. *)
Theorem typing_appends env D R k :
  settled sel D R ->
  typable k ->
  let idx := parentIndex (nav R) in
  let R' := after (handler sel env D R (plainKey k)) in
  let base :=
    if bool_decide (idx = ACTION)
       || bool_decide (get3 idx (parentIds (nav R)) = JStr itemCatalogId)
    then get3 idx (filterTexts (nav R)) else ""%string in
  settled sel D R' /\
  parentIndex (nav R') = idx /\
  get3 idx (parentIds (nav R')) = JStr itemCatalogId /\
  get3 idx (filterTexts (nav R')) = (base ++ toLowerCase k)%string.
Proof. apply typing_at_rest. Qed.






(** ** Tab *)

(** Changing the active pane of a component at rest changes nothing
    else: no effect depends on [parentIndex]. *)
Lemma update_setParentIndex D R (f : NavState -> PaneIndex) :
  settled sel D R ->
  let R' := update sel D (fun s' => setParentIndex (f s') s') R in
  nav R' = setParentIndex (f (nav R)) (nav R) /\ settled sel D R'.
Proof.
  intros Hs R'. subst R'. unfold update. case_bool_decide as E.
  - split; [symmetry; exact E|exact Hs].
  - assert (Hs' : settled sel D
                    (mkR (setParentIndex (f (nav R)) (nav R)) (lastDeps R))).
    { apply quiet_all_settled;
        apply (quiet_after_upd D R (fun s' => setParentIndex (f (nav R)) s'));
        auto. }
    rewrite (pass_of_settled D _ Hs'). split; [reflexivity|exact Hs'].
Qed.

Lemma tab_at_rest env D R event :
  settled sel D R ->
  key event = "Tab"%string ->
  let bounds := if shouldShowIndirect D (nav R) then 3 else 2 in
  let j := pane_of_Z
             (wrapAround (pane_to_Z (parentIndex (nav R))
                          + (if shiftKey event then -1 else 1)) bounds) in
  let o := handler sel env D R event in
  defaultPrevented o = true /\
  nav (after o) = setParentIndex j (nav R) /\
  settled sel D (after o) /\
  paneRendered D (nav (after o)) (parentIndex (nav (after o))) = true.
Proof.
  intros Hs K bounds j o. subst o. unfold handler. rewrite K.
  cbn [keyCase String.eqb Ascii.eqb Bool.eqb defaultPrevented after finished].
  destruct (update_setParentIndex D R
              (fun s' => pane_of_Z
                 (wrapAround (pane_to_Z (parentIndex s')
                              + (if shiftKey event then -1 else 1)) bounds))
              Hs) as [Hn Hs'].
  split; [reflexivity|]. split; [exact Hn|]. split; [exact Hs'|].
  fold bounds. rewrite Hn. fold j. unfold paneRendered.
  change (shouldShowIndirect D (setParentIndex j (nav R)))
    with (shouldShowIndirect D (nav R)).
  cbn [parentIndex setParentIndex]. subst j bounds.
  destruct (shouldShowIndirect D (nav R)).
  - cbn [negb]. rewrite andb_false_r. reflexivity.
  - destruct (parentIndex (nav R)), (shiftKey event); reflexivity.
Qed.

(** X11. Tab or Shift+Tab on a component at rest changes the active pane
    and nothing else, and the pane it moves to is one whose header is
    rendered: the third pane is reached only while [shouldShowIndirect]
    holds. *)
Theorem tab_moves_to_rendered_pane env D R event :
  settled sel D R ->
  key event = "Tab"%string ->
  let bounds := if shouldShowIndirect D (nav R) then 3 else 2 in
  let j := pane_of_Z
             (wrapAround (pane_to_Z (parentIndex (nav R))
                          + (if shiftKey event then -1 else 1)) bounds) in
  let o := handler sel env D R event in
  defaultPrevented o = true /\
  nav (after o) = setParentIndex j (nav R) /\
  settled sel D (after o) /\
  paneRendered D (nav (after o)) (parentIndex (nav (after o))) = true.
Proof. apply tab_at_rest. Qed.

Lemma setParentIndex_back (s : NavState) (j : PaneIndex) :
  setParentIndex (parentIndex s) (setParentIndex j s) = s.
Proof. destruct s; reflexivity. Qed.

(** X12. On a component at rest whose active pane is rendered, Tab
    followed by Shift+Tab, and Shift+Tab followed by Tab, lead back to
    the state they started from. *)
Theorem tab_round_trip env D R :
  settled sel D R ->
  paneRendered D (nav R) (parentIndex (nav R)) = true ->
  nav (pressKeys sel env D ["Tab"%string] R) <> nav R /\
  nav (after (handler sel env D (pressKeys sel env D ["Tab"%string] R)
                (shiftKeyed "Tab"))) = nav R /\
  nav (pressKeys sel env D ["Tab"%string]
         (after (handler sel env D R (shiftKeyed "Tab")))) = nav R.
Proof.
  intros Hs Hr. unfold pressKeys. cbn [fold_left].
  destruct (tab_at_rest env D R (plainKey "Tab") Hs eq_refl)
    as (_ & Hn1 & Hs1 & _).
  destruct (tab_at_rest env D R (shiftKeyed "Tab") Hs eq_refl)
    as (_ & Hn2 & Hs2 & _).
  destruct (tab_at_rest env D _ (shiftKeyed "Tab") Hs1 eq_refl)
    as (_ & Hn3 & _).
  destruct (tab_at_rest env D _ (plainKey "Tab") Hs2 eq_refl)
    as (_ & Hn4 & _).
  cbv zeta in *. rewrite Hn3, Hn4, Hn1, Hn2. clear Hn1 Hn2 Hn3 Hn4 Hs1 Hs2.
  cbn [shiftKey plainKey shiftKeyed parentIndex setParentIndex].
  repeat match goal with
         | |- context [shouldShowIndirect D (setParentIndex ?j (nav R))] =>
             change (shouldShowIndirect D (setParentIndex j (nav R)))
               with (shouldShowIndirect D (nav R))
         end.
  unfold paneRendered in Hr.
  destruct (nav R) as [idx ft ps cs] eqn:E. cbn [parentIndex] in *.
  unfold setParentIndex; cbn [parentIndex filterTexts parentIds childIds].
  destruct (shouldShowIndirect D (mkNav idx ft ps cs)), idx;
    try discriminate Hr; repeat split; try reflexivity; discriminate.
Qed.

(** ** The window *)

(** X13. The height asked for the window is that of the header plus one
    to five rows of 64: an empty list counts as one row, a list of more
    than five rows as five.  The width is 352, or 520 while the third
    pane is shown. *)
Theorem window_size_bounds D s :
  let n := Z.of_nat (length (filteredListItems sel D s (parentIndex s))) in
  240 <= windowHeight sel D s <= 496 /\
  (n = 0 -> windowHeight sel D s = 240) /\
  (1 <= n <= 5 -> windowHeight sel D s = 176 + 64 * n) /\
  (5 <= n -> windowHeight sel D s = 496) /\
  windowWidth D s = (if paneRendered D s INDIRECT then 520 else 352).
Proof.
  intros n. unfold windowHeight. fold n.
  assert (0 <= n) by (subst n; lia).
  repeat split; try lia.
  unfold windowWidth, paneRendered. cbn.
  destruct (shouldShowIndirect D s); reflexivity.
Qed.

(** ** The parent id of the action pane *)

Lemma runEffects_setParentId_action last cur v s :
  runEffects last cur (setParentId ACTION v s) =
  setParentId ACTION v (runEffects last cur s).
Proof. split_effects. Qed.

Lemma iter_setParentId_action D v n s last :
  Nat.iter n (commit sel D) (mkR (setParentId ACTION v s) last) =
  mkR (setParentId ACTION v (nav (Nat.iter n (commit sel D) (mkR s last))))
      (lastDeps (Nat.iter n (commit sel D) (mkR s last))).
Proof.
  induction n as [|n IH]; [reflexivity|].
  rewrite !Nat.iter_succ, IH. unfold commit at 1. cbn [nav lastDeps].
  change (depsOf sel D (setParentId ACTION v ?x)) with (depsOf sel D x).
  rewrite runEffects_setParentId_action. reflexivity.
Qed.

(** X14. The parent id of the action pane has no part in what is shown
    or fetched: it passes through the cascade of effects untouched and
    without influence on it, and the filtered lists, the visibility of
    the third pane and the three query urls do not depend on it.  (The
    keydown handler does store it, when a key is typed on the action
    pane, and read it, on ArrowLeft.) *)
Theorem action_parent_outside_cascade D v s last :
  pass sel D (mkR (setParentId ACTION v s) last) =
    mkR (setParentId ACTION v (nav (pass sel D (mkR s last))))
        (lastDeps (pass sel D (mkR s last))) /\
  shouldShowIndirect D (setParentId ACTION v s) = shouldShowIndirect D s /\
  forall i,
    filteredListItems sel D (setParentId ACTION v s) i =
    filteredListItems sel D s i /\
    queryUrl (setParentId ACTION v s) i = queryUrl s i.
Proof.
  split; [rewrite !pass_seven; apply iter_setParentId_action|].
  split; [reflexivity|]. intros i. split; [reflexivity|].
  destruct i; reflexivity.
Qed.

(** ** The component comes to rest after every event *)

Lemma handler_settled env D R event :
  settled sel D R -> settled sel D (after (handler sel env D R event)).
Proof.
  intros Hs. unfold handler.
  destruct (keyCase (key event)); cbn [after finished].
  - apply update_settled, Hs.
  - destruct (findById _ _) as [item|]; cbn [after]; [|exact Hs].
    destruct (hasChildren item); cbn [after finished];
      [apply update_settled, Hs|exact Hs].
  - case_bool_decide; cbn [after finished]; [exact Hs|].
    destruct (api _ _ _); cbn [after]; [apply update_settled, Hs|exact Hs].
  - apply update_settled, Hs.
  - apply update_settled, Hs.
  - destruct (api _ _ _); exact Hs.
  - apply update_settled, Hs.
  - destruct (metaKey event || ctrlKey event || altKey event);
      cbn [after finished]; [exact Hs|].
    destruct (includes _ _); cbn [after finished]; [|exact Hs].
    apply update_settled, update_settled, Hs.
Qed.

Lemma step_settled env a ev :
  settled sel (itemsQueries a) (component a) ->
  settled sel (itemsQueries (step sel env a ev))
          (component (step sel env a ev)).
Proof.
  destruct a as [D R]. cbn [itemsQueries component]. intros Hs.
  destruct ev as [D'|event|i|k]; cbn [step itemsQueries component].
  - apply pass_settled.
  - apply handler_settled, Hs.
  - destruct (bool_decide (i = INDIRECT)
              && negb (shouldShowIndirect D (nav R)));
      cbn [itemsQueries component]; [exact Hs|apply update_settled, Hs].
  - destruct (_ !! k); cbn [itemsQueries component];
      [apply update_settled, Hs|exact Hs].
Qed.

Lemma run_settled env evs :
  let a := run sel env evs in
  settled sel (itemsQueries a) (component a).
Proof.
  cbn zeta. induction evs as [|ev evs IH] using rev_ind.
  - unfold run, mount. cbn [fold_left itemsQueries component].
    apply pass_settled.
  - rewrite run_snoc. apply step_settled, IH.
Qed.

(** X15. Whatever the events (lists arriving, keys, clicks) and whatever
    the server answers, after each of them the component is at rest for
    the lists it shows: one more render would run no effect and change
    nothing. *)
Theorem at_rest_after_every_event env evs :
  let a := run sel env evs in
  settled sel (itemsQueries a) (component a).
Proof. apply run_settled. Qed.

(** ** The first item stays selected *)

Lemma handler_followsFirst env D R event i :
  ~ movesSelection (KeyDown event) ->
  followsFirst R i -> followsFirst (after (handler sel env D R event)) i.
Proof.
  intros Hm Hf. unfold handler. cbn [movesSelection] in Hm.
  destruct (keyCase (key event)); cbn [after finished];
    try (exfalso; apply Hm; auto; fail).
  - apply update_followsFirst; [reflexivity|exact Hf].
  - destruct (findById _ _) as [item|]; cbn [after]; [|exact Hf].
    destruct (hasChildren item); cbn [after finished]; [|exact Hf].
    apply update_followsFirst; [reflexivity|exact Hf].
  - case_bool_decide; cbn [after finished]; [exact Hf|].
    destruct (api _ _ _); cbn [after]; [|exact Hf].
    apply update_followsFirst; [reflexivity|exact Hf].
  - destruct (api _ _ _); exact Hf.
  - apply update_followsFirst; [reflexivity|exact Hf].
  - destruct (metaKey event || ctrlKey event || altKey event);
      cbn [after finished]; [exact Hf|].
    destruct (includes _ _); cbn [after finished]; [|exact Hf].
    apply update_followsFirst; [reflexivity|].
    apply update_followsFirst; [reflexivity|exact Hf].
Qed.

Lemma step_followsFirst env a ev i :
  ~ movesSelection ev ->
  followsFirst (component a) i ->
  followsFirst (component (step sel env a ev)) i.
Proof.
  destruct a as [D R]. cbn [component]. intros Hm Hf.
  destruct ev as [D'|event|j|k]; cbn [step component itemsQueries].
  - apply pass_selectionRule, Hf.
  - apply handler_followsFirst; assumption.
  - destruct (bool_decide (j = INDIRECT)
              && negb (shouldShowIndirect D (nav R)));
      cbn [component]; [exact Hf|].
    apply update_followsFirst; [reflexivity|exact Hf].
  - exfalso. apply Hm. exact I.
Qed.

(** X16. As long as the selection is not moved by hand (no ArrowUp, no
    ArrowDown, no click on a row), every pane whose filtered list starts
    with an item of non-empty id has that item selected, after any
    sequence of arriving lists, other keys and clicks on headers. *)
Theorem first_item_stays_selected env evs i :
  Forall (fun ev => ~ movesSelection ev) evs ->
  let a := run sel env evs in
  let f := firstChildListItemId sel (itemsQueries a) (nav (component a)) i in
  truthy f = true ->
  get3 i (childIds (nav (component a))) = f /\
  selectedAmong (nav (component a)) i
    (filteredListItems sel (itemsQueries a) (nav (component a)) i).
Proof.
  intros Hev a f Ht.
  assert (Hf : followsFirst (component a) i).
  { subst a. clear f Ht. induction evs as [|ev evs IH] using rev_ind.
    - unfold run, mount. cbn [fold_left component].
      apply pass_selectionRule. intros d Hd. discriminate.
    - apply Forall_app in Hev as [Hev Hm]. apply Forall_inv in Hm.
      rewrite run_snoc. apply step_followsFirst; auto. }
  pose proof (settled_lastDeps _ _ (run_settled env evs))
    as Hlast.
  fold a in Hlast. specialize (Hf _ Hlast).
  rewrite firstOf_depsOf in Hf. specialize (Hf Ht I).
  split; [exact Hf|].
  destruct (firstId_truthy_head _ Ht) as (it & Hin & Hid).
  exists it. split; [exact Hin|]. rewrite Hf. exact Hid.
Qed.

(** ** Keys that are typed *)

(** X17. A key of one ASCII character is typed exactly when the
    character is a letter, in either case, or a digit. *)
Theorem one_character_keys (c : ascii) :
  keyCase (String c "") = CaseDefault /\
  includes alphanumerics (toLowerCase (String c "")) = isAlphanumeric c.
Proof.
  destruct c as [b0 b1 b2 b3 b4 b5 b6 b7].
  destruct b0, b1, b2, b3, b4, b5, b6, b7; split; vm_compute; reflexivity.
Qed.

(** ** A new selection resets the pane it feeds *)

(** The commit that sees a changed selection upstream selects the first
    item downstream. *)
Lemma commit_selects_downstream D R i :
  i <> INDIRECT ->
  changed (lastDeps R) (depsOf sel D (nav R))
    (match i with DIRECT => directChildId | _ => actionChildId end) = true ->
  followsFirst (commit sel D R) (downstream i).
Proof.
  intros Hi Hch d Hd Ht _. cbn in Hd. injection Hd as <-.
  cbn [nav commit]. destruct i; [| |contradiction]; cbn [downstream firstOf] in *.
  - rewrite runEffects_child_action, Hch, Ht, !orb_true_r. reflexivity.
  - rewrite runEffects_child_indirect, Hch, Ht, !orb_true_r. reflexivity.
Qed.

Lemma update_selects_downstream D R i v :
  settled sel D R ->
  i <> INDIRECT ->
  v <> get3 i (childIds (nav R)) ->
  let R' := update sel D (setChildId i v) R in
  get3 (downstream i) (filterTexts (nav R')) = ""%string /\
  followsFirst R' (downstream i).
Proof.
  intros Hs Hi Hv R'. subst R'. unfold update. case_bool_decide as E.
  { exfalso. apply Hv. rewrite <- E. symmetry. apply set3_get3. }
  set (X := mkR (setChildId i v (nav R)) (lastDeps R)).
  assert (Hch : changed (lastDeps X) (depsOf sel D (nav X))
                  (match i with DIRECT => directChildId | _ => actionChildId
                   end) = true).
  { unfold X; cbn [nav lastDeps]. rewrite (settled_lastDeps D R Hs).
    unfold changed. apply negb_true_iff, bool_decide_eq_false.
    destruct i; [| |contradiction]; cbn in *; congruence. }
  split.
  - rewrite pass_seven. change 7%nat with (S 6). rewrite Nat.iter_succ_r.
    assert (E0 : get3 (downstream i) (filterTexts (nav (commit sel D X)))
                 = ""%string).
    { unfold commit; cbn [nav]. destruct i; [| |contradiction];
        cbn [downstream].
      - rewrite runEffects_filter_action, Hch. reflexivity.
      - rewrite runEffects_filter_indirect, Hch, orb_true_r. reflexivity. }
    destruct (iter_filter_cases D (commit sel D X) (downstream i) 6) as [F|F];
      rewrite F; [reflexivity|exact E0].
  - rewrite pass_seven. change 7%nat with (S 6). rewrite Nat.iter_succ_r.
    apply iter_selectionRule, commit_selects_downstream; assumption.
Qed.

(** X22. When ArrowUp, ArrowDown or a click on a row changes the
    selection of the direct (action) pane of a component at rest, the
    action (indirect) pane is reset: its filter text is empty afterwards
    and, if its filtered list then starts with an item of non-empty id,
    that item is its selection. *)
Theorem moved_selection_resets_downstream env D R ev :
  settled sel D R ->
  movesSelection ev ->
  let idx := parentIndex (nav R) in
  idx <> INDIRECT ->
  let R' := component (step sel env (mkApp D R) ev) in
  get3 idx (childIds (nav R')) <> get3 idx (childIds (nav R)) ->
  let f := firstChildListItemId sel D (nav R') (downstream idx) in
  get3 (downstream idx) (filterTexts (nav R')) = ""%string /\
  (truthy f = true -> get3 (downstream idx) (childIds (nav R')) = f).
Proof.
  intros Hs Hm idx Hi R' Hne f.
  assert (Hupd : exists v, R' = update sel D (setChildId idx v) R).
  { subst R'. destruct ev as [D'|event|j|k]; cbn [movesSelection] in Hm;
      try contradiction; cbn [step itemsQueries component] in *.
    - unfold handler in *. fold idx in Hne |- *.
      destruct Hm as [K|K]; rewrite K in *; cbn [after finished] in *;
        eexists; reflexivity.
    - fold idx in Hne |- *.
      destruct (filteredListItems sel D (nav R) idx !! k) as [item|];
        cbn [component] in *; [eexists; reflexivity|].
      exfalso. apply Hne. reflexivity. }
  destruct Hupd as [v Hv].
  destruct (update_choose_row D R idx v Hs) as (Hc & _).
  destruct (update_selects_downstream D R idx v Hs Hi) as [H1 H2].
  { rewrite <- Hc, <- Hv. exact Hne. }
  rewrite <- Hv in H1, H2. split; [exact H1|].
  intros Ht. subst f.
  assert (Hs' : settled sel D R')
    by (rewrite Hv; apply update_settled, Hs).
  specialize (H2 _ (settled_lastDeps D R' Hs')).
  rewrite firstOf_depsOf in H2. apply H2; [exact Ht|exact I].
Qed.

End NavigatorFacts.

(** * The navigator run on concrete inputs *)

Lemma fruits_filtered_by_a :
  let a := run containsSelect okServer
             [Fetched fruitData; KeyDown (plainKey "a");
              KeyDown (plainKey "Backspace"); KeyDown (plainKey "ArrowDown");
              KeyDown (plainKey "ArrowDown"); KeyDown (plainKey "a")] in
  filteredListItems containsSelect (itemsQueries a) (nav (component a))
    DIRECT
  = [plainItem "apple" "apple" ""; plainItem "avocado" "avocado" ""] /\
  get3 DIRECT (childIds (nav (component a))) = JStr "cherry".
Proof. vm_compute. split; reflexivity. Qed.

(** C1 (counterexample). The list apple, avocado, cherry has arrived; the
    user types "a", clears the filter with Backspace, goes down twice to
    the last row and types "a" again.  The filtered list is apple, avocado; its
    first row is the same as before, the effect stays idle, and the
    selection remains "cherry", which the filter hides. *)
Lemma autoselect_counterexample : ~ autoSelectClaim containsSelect.
Proof.
  intros H.
  specialize (H okServer
                [Fetched fruitData; KeyDown (plainKey "a");
                 KeyDown (plainKey "Backspace");
                 KeyDown (plainKey "ArrowDown"); KeyDown (plainKey "ArrowDown");
                 KeyDown (plainKey "a")] DIRECT).
  destruct fruits_filtered_by_a as [Hl Hs]. cbn zeta in *.
  unfold selectedAmong in H. rewrite Hl, Hs in H.
  destruct H as (it & Hin & Hid); [discriminate|].
  destruct Hin as [<-|[<-|[]]]; discriminate.
Qed.

Lemma autoselect_after_pass_witness :
  get3 DIRECT
    (childIds (nav (pass containsSelect fruitData
                      (component (mount containsSelect)))))
  = JStr "apple".
Proof.
  destruct (autoselect_after_pass containsSelect fruitData
              (component (mount containsSelect)) DIRECT) as [H _].
  - vm_compute. reflexivity.
  - left. vm_compute. discriminate.
  - rewrite H. vm_compute. reflexivity.
Defined.

(** C2 (counterexample). With the list Mail, Safari, Slack, typing "s"
    at the root selects Safari and leaves "s" as filter text, but the
    parent id of the direct pane goes from [null] to "item-catalog". *)
Lemma typing_scenario_counterexample :
  ~ typingScenarioClaim containsSelect okServer appData.
Proof.
  unfold typingScenarioClaim. intros (_ & H & _).
  vm_compute in H. discriminate.
Qed.

Lemma typing_s_at_root_witness :
  get3 DIRECT
    (childIds (nav (component
       (run containsSelect okServer
          [Fetched appData; KeyDown (plainKey "s")]))))
  = JStr "safari".
Proof.
  destruct (typing_s_at_root containsSelect okServer appData)
    as (_ & _ & _ & H).
  rewrite H; vm_compute; reflexivity.
Defined.

(** C3 (counterexample). The lists have arrived; ArrowDown selects the
    next item, whose actions are not there yet, so the actions of the
    item before stay shown; two Tabs make the indirect pane active.  Then
    the actions of the new item arrive, and the first of them has no
    indirect types: [shouldShowIndirect] turns false and the active pane
    is still the third one. *)
Lemma visibility_coupling_counterexample :
  ~ visibilityCouplingClaim containsSelect.
Proof.
  intros H.
  specialize (H okServer
                [Fetched openWithData; KeyDown (plainKey "ArrowDown");
                 KeyDown (plainKey "Tab"); KeyDown (plainKey "Tab")]
                (Fetched openData)).
  cbn zeta in H. vm_compute in H.
  specialize (H eq_refl eq_refl eq_refl). discriminate.
Qed.

Lemma indirect_stays_active_witness :
  parentIndex
    (nav (pass containsSelect openData
            (component
               (run containsSelect okServer
                  [Fetched openWithData; KeyDown (plainKey "Tab");
                   KeyDown (plainKey "Tab")]))))
  = INDIRECT.
Proof.
  destruct (indirect_stays_active containsSelect openWithData openData
              (component
                 (run containsSelect okServer
                    [Fetched openWithData; KeyDown (plainKey "Tab");
                     KeyDown (plainKey "Tab")]))) as [H _].
  - vm_compute. reflexivity.
  - vm_compute. reflexivity.
  - vm_compute. reflexivity.
  - exact H.
Defined.

(** C4 (the failing input, evaluated). Run with the substring filter, the
    text "foo" drops the item whose [detail] is "foo". *)
Lemma detail_match_dropped :
  filteredListItems containsSelect
    (mkArr3 (Some [fooInDetail]) None None)
    (setFilterText DIRECT "foo" initialNav) DIRECT = [].
Proof. reflexivity. Qed.

(** C5 (counterexample). The folder "projects" is listed and selected,
    ArrowRight drills into it, and its list of children arrives empty:
    the selection is still "projects", an id that the fetched list of the
    pane does not contain. *)
Lemma selection_fetched_counterexample :
  ~ selectionFetchedClaim containsSelect.
Proof.
  intros H.
  specialize (H okServer
                [Fetched folderData; KeyDown (plainKey "ArrowRight");
                 Fetched emptyFolderData] DIRECT).
  cbn zeta in H. unfold selectedAmong in H. vm_compute in H.
  destruct H as [H|(it & [] & _)]. discriminate.
Qed.

Lemma selection_stays_fetched_witness :
  selectionFetched fruitData
    (nav (component
       (step containsSelect okServer
          (run containsSelect okServer [Fetched fruitData])
          (KeyDown (plainKey "ArrowDown"))))).
Proof.
  apply (selection_stays_fetched containsSelect okServer
           (run containsSelect okServer [Fetched fruitData])
           (KeyDown (plainKey "ArrowDown"))).
  - intros i. destruct i; vm_compute; [right|left; reflexivity..].
    exists (plainItem "apple" "apple" ""). split; [left|]; reflexivity.
  - exact I.
  - intros [_ H]. vm_compute in H. discriminate.
Defined.

(** What the amended C5 leaves aside: ArrowDown before any list arrived
    stores [undefined], which is not [null], so the action query becomes
    enabled and asks for the actions of "undefined". *)
Lemma arrow_on_empty_list_selects_undefined :
  let s := nav (component
             (run containsSelect okServer [KeyDown (plainKey "ArrowDown")])) in
  get3 DIRECT (childIds s) = JUndefined /\
  queryEnabled s ACTION = true /\
  queryUrl s ACTION = "/items/undefined/actions"%string.
Proof. vm_compute. repeat split. Qed.

(** Shift+Tab on the first pane wraps to the action pane while the third
    pane is hidden. *)
Lemma shift_tab_wraps :
  parentIndex
    (nav (after (handler containsSelect okServer noData
                   (component (mount containsSelect)) (shiftKeyed "Tab"))))
  = ACTION.
Proof. reflexivity. Qed.

(** C6 (counterexample). Ctrl+Tab right after mounting is consumed and
    moves to the action pane. *)
Lemma modifier_counterexample : ~ modifierClaim containsSelect.
Proof.
  intros H.
  specialize (H okServer noData (component (mount containsSelect))
                (ctrlKeyed "Tab") eq_refl).
  vm_compute in H. discriminate.
Qed.

Lemma modifier_ignored_witness :
  handler containsSelect okServer noData (component (mount containsSelect))
    (ctrlKeyed "c")
  = finished (component (mount containsSelect)) false.
Proof.
  apply (modifier_ignored_in_default_case containsSelect okServer noData
           (component (mount containsSelect)) (ctrlKeyed "c"));
    [reflexivity | discriminate..].
Defined.

Lemma enter_hides_only_on_success_witness :
  hideRequested
    (handler containsSelect failingServer noData
       (component (mount containsSelect)) (plainKey "Enter")) = false.
Proof.
  destruct (enter_hides_only_on_success containsSelect failingServer noData
              (component (mount containsSelect)) (plainKey "Enter") eq_refl)
    as [H _].
  destruct (H (ApiError (JStr "failed") JUndefined) eq_refl) as [Hh _].
  exact Hh.
Defined.

(** * The further properties at concrete inputs *)

Lemma change_resets_filter_witness :
  get3 ACTION (filterTexts (nav (pass containsSelect appData
                                   staleActionFilter))) = ""%string.
Proof.
  pose proof (change_resets_filter containsSelect appData staleActionFilter
                _ eq_refl) as H.
  cbv zeta in H. destruct H as (_ & _ & H & _). apply H.
  vm_compute. discriminate.
Defined.

Lemma arrow_selects_shown_row_witness :
  filteredListItems containsSelect fruitData
    (nav (after (handler containsSelect okServer fruitData fruitsShown
                   (plainKey "ArrowDown")))) DIRECT
  = fruits.
Proof.
  pose proof (arrow_selects_shown_row containsSelect okServer fruitData
                fruitsShown (plainKey "ArrowDown")
                (pass_settled containsSelect fruitData (mkR initialNav None))
                (or_intror eq_refl)) as H.
  cbv zeta in H. destruct H as (_ & H & _).
  - intros E. vm_compute in E. discriminate E.
  - vm_compute. reflexivity.
Defined.

Lemma click_selects_row_witness :
  get3 DIRECT
    (childIds (nav (component
       (step containsSelect okServer (mkApp fruitData fruitsShown)
          (ClickItem 2)))))
  = JStr "cherry".
Proof.
  pose proof (click_selects_row containsSelect okServer fruitData fruitsShown
                2 (plainItem "cherry" "cherry" "")
                (pass_settled containsSelect fruitData (mkR initialNav None)))
    as H.
  cbv zeta in H. destruct H as (H & _).
  - vm_compute. reflexivity.
  - vm_compute. reflexivity.
Defined.

Lemma arrowRight_drills_in_witness :
  get3 DIRECT
    (parentIds (nav (after (handler containsSelect okServer folderData
                              folderShown (plainKey "ArrowRight")))))
  = JStr "projects".
Proof.
  pose proof (arrowRight_drills_in containsSelect okServer folderData
                folderShown (plainKey "ArrowRight")
                (folderItem "projects" "Projects" "")
                (pass_settled containsSelect folderData (mkR initialNav None))
                eq_refl) as H.
  cbv zeta in H. destruct H as (_ & _ & H & _).
  - vm_compute. reflexivity.
  - reflexivity.
  - vm_compute. reflexivity.
Defined.

Lemma arrowLeft_drills_out_witness :
  defaultPrevented
    (handler containsSelect flatServer emptyFolderData folderOpened
       (plainKey "ArrowLeft")) = true.
Proof.
  pose proof (arrowLeft_drills_out containsSelect flatServer emptyFolderData
                folderOpened (plainKey "ArrowLeft")
                (pass_settled containsSelect emptyFolderData
                   (mkR (setParentId DIRECT (JStr "projects") initialNav)
                        None))
                eq_refl) as H.
  cbv zeta in H. destruct H as (H & _).
  - intros E. vm_compute in E. discriminate E.
  - exact H.
Defined.

Lemma backspace_clears_filter_witness :
  get3 DIRECT
    (filterTexts (nav (after (handler containsSelect okServer fruitData
                                fruitsShown (plainKey "Backspace")))))
  = ""%string.
Proof.
  pose proof (backspace_clears_filter containsSelect okServer fruitData
                fruitsShown (plainKey "Backspace") eq_refl) as H.
  cbv zeta in H. destruct H as (_ & H & _).
  rewrite <- H. vm_compute. reflexivity.
Defined.

Lemma typing_appends_witness :
  settled containsSelect emptyFolderData
    (after (handler containsSelect okServer emptyFolderData folderOpened
              (plainKey "A"))).
Proof.
  pose proof (typing_appends containsSelect okServer emptyFolderData
                folderOpened "A"
                (pass_settled containsSelect emptyFolderData
                   (mkR (setParentId DIRECT (JStr "projects") initialNav)
                        None))
                (conj eq_refl eq_refl)) as H.
  cbv zeta in H. destruct H as (H & _). exact H.
Defined.


Lemma tab_moves_to_rendered_pane_witness :
  paneRendered fruitData
    (nav (after (handler containsSelect okServer fruitData fruitsShown
                   (shiftKeyed "Tab"))))
    (parentIndex
       (nav (after (handler containsSelect okServer fruitData fruitsShown
                      (shiftKeyed "Tab")))))
  = true.
Proof.
  pose proof (tab_moves_to_rendered_pane containsSelect okServer fruitData
                fruitsShown (shiftKeyed "Tab")
                (pass_settled containsSelect fruitData (mkR initialNav None))
                eq_refl) as H.
  cbv zeta in H. destruct H as (_ & _ & _ & H). exact H.
Defined.

Lemma tab_round_trip_witness :
  nav (after (handler containsSelect okServer fruitData
                (pressKeys containsSelect okServer fruitData ["Tab"%string]
                   fruitsShown)
                (shiftKeyed "Tab"))) = nav fruitsShown.
Proof.
  pose proof (tab_round_trip containsSelect okServer fruitData fruitsShown
                (pass_settled containsSelect fruitData (mkR initialNav None)))
    as H.
  destruct H as (_ & H & _).
  - vm_compute. reflexivity.
  - exact H.
Defined.

Lemma first_item_stays_selected_witness :
  get3 DIRECT
    (childIds (nav (component
       (run containsSelect okServer
          [Fetched appData; KeyDown (plainKey "s");
           KeyDown (plainKey "Backspace"); KeyDown (plainKey "Tab")]))))
  = JStr "mail".
Proof.
  pose proof (first_item_stays_selected containsSelect okServer
                [Fetched appData; KeyDown (plainKey "s");
                 KeyDown (plainKey "Backspace"); KeyDown (plainKey "Tab")]
                DIRECT) as H.
  cbv zeta in H. destruct H as (H & _).
  - repeat (apply List.Forall_cons; [vm_compute; intuition discriminate|]).
    apply List.Forall_nil.
  - vm_compute. reflexivity.
  - rewrite H. vm_compute. reflexivity.
Defined.

Lemma moved_selection_resets_downstream_witness :
  get3 (downstream (parentIndex (nav actionsShown)))
    (filterTexts
       (nav (component
          (step containsSelect okServer (mkApp openWithData actionsShown)
             (KeyDown (plainKey "ArrowDown"))))))
  = ""%string.
Proof.
  pose proof (moved_selection_resets_downstream containsSelect okServer
                openWithData actionsShown (KeyDown (plainKey "ArrowDown"))
                (pass_settled containsSelect openWithData
                   (mkR initialNav None))
                (or_intror eq_refl)) as H.
  cbv zeta in H. destruct H as (H & _).
  - vm_compute. discriminate.
  - vm_compute. discriminate.
  - exact H.
Defined.

(** * The item catalog *)

Module CatalogFacts.
Import Catalog.
Section CatalogFacts.

Variable Entry : Type.
Variable Filter : Type.
Variables isNotHidden isApplication : Filter.
Variable spread : Filter -> Filter -> Filter.
Variable sift : Filter -> Entry -> bool.

Implicit Types (context : Context Entry) (preset : Preset Filter).

Lemma catalogOf_cons context preset ps :
  catalogOf sift context (preset :: ps) =
  match runPreset sift context preset, catalogOf sift context ps with
  | Some items, Some rest => Some (items ++ rest)%list
  | _, _ => None
  end.
Proof.
  unfold catalogOf. cbn [map promiseAll].
  destruct (runPreset sift context preset) as [items|]; [|reflexivity].
  destruct (promiseAll _) as [xs|]; reflexivity.
Qed.

Lemma runPreset_In context preset items entry :
  runPreset sift context preset = Some items ->
  (In entry items <-> contributes sift context preset entry).
Proof.
  unfold runPreset, contributes.
  destruct (findProvider context (itemProviderId preset)) as [provider|].
  - destruct (run provider (meta preset)) as [found|] eqn:E; [|discriminate].
    intros [= <-]. rewrite filter_In. split.
    + intros [H1 H2]. exists provider, found. repeat split; auto.
    + intros (p & l & [= <-] & Hl & H1 & H2).
      rewrite E in Hl. injection Hl as <-. split; assumption.
  - intros [= <-]. split; [intros []|].
    intros (p & l & H & _). discriminate.
Qed.

Lemma runPreset_None context preset :
  runPreset sift context preset = None <-> rejects context preset.
Proof.
  unfold runPreset, rejects.
  destruct (findProvider context (itemProviderId preset)) as [provider|].
  - destruct (run provider (meta preset)) as [found|] eqn:E.
    + split; [discriminate|]. intros (p & [= <-] & H). congruence.
    + split; [|reflexivity]. intros _. exists provider. auto.
  - split; [discriminate|]. intros (p & H & _). discriminate.
Qed.

Lemma catalogOf_In context ps items entry :
  catalogOf sift context ps = Some items ->
  (In entry items <->
   exists preset, In preset ps /\ contributes sift context preset entry).
Proof.
  revert items. induction ps as [|preset ps IH]; intros items.
  - intros [= <-]. split; [intros []|intros (p & [] & _)].
  - rewrite catalogOf_cons.
    destruct (runPreset sift context preset) as [here|] eqn:E1;
      [|discriminate].
    destruct (catalogOf sift context ps) as [rest|]; [|discriminate].
    intros [= <-]. rewrite in_app_iff, (runPreset_In _ _ _ entry E1).
    rewrite (IH rest eq_refl). split.
    + intros [H|(p & Hp & H)]; [exists preset|exists p]; cbn; auto.
    + intros (p & [<-|Hp] & H); [left; exact H|right; exists p; auto].
Qed.

Lemma catalogOf_None context ps :
  catalogOf sift context ps = None <->
  exists preset, In preset ps /\ rejects context preset.
Proof.
  induction ps as [|preset ps IH].
  - split; [discriminate|intros (p & [] & _)].
  - rewrite catalogOf_cons.
    destruct (runPreset sift context preset) as [here|] eqn:E1.
    + destruct (catalogOf sift context ps) as [rest|].
      * split; [discriminate|]. intros (p & [<-|Hp] & H).
        -- apply runPreset_None in H. congruence.
        -- destruct IH as [_ IH2].
           discriminate (IH2 (ex_intro _ p (conj Hp H))).
      * split; [|reflexivity]. intros _.
        destruct IH as [IH1 _]. destruct (IH1 eq_refl) as (p & Hp & H).
        exists p. cbn. auto.
    + split; [|reflexivity]. intros _. exists preset. split; [left; auto|].
      apply runPreset_None, E1.
Qed.

(** X18. When the catalog run is fulfilled, its items are exactly the
    items that the provider found for one of the six presets lists under
    the path of that preset and that pass the filter of that preset:
    nothing else gets in, nothing of that is lost. *)
Theorem catalog_membership context items entry :
  itemCatalogRun isNotHidden isApplication spread sift context = Some items ->
  (In entry items <->
   exists preset,
     In preset (presets isNotHidden isApplication spread) /\
     contributes sift context preset entry).
Proof. apply catalogOf_In. Qed.

(** X19. The catalog run is rejected exactly when, for one of the
    presets, the provider found for it rejects; a preset without
    provider never makes the run fail. *)
Theorem catalog_rejected_iff context :
  itemCatalogRun isNotHidden isApplication spread sift context = None <->
  exists preset,
    In preset (presets isNotHidden isApplication spread) /\
    rejects context preset.
Proof. apply catalogOf_None. Qed.

Lemma findProvider_none context pid :
  (forall provider, In provider (providers context) -> id provider <> pid) ->
  findProvider context pid = None.
Proof.
  unfold findProvider. induction (providers context) as [|p l IH];
    intros H; [reflexivity|]. cbn [find].
  rewrite (proj2 (String.eqb_neq _ _) (H p (or_introl eq_refl))).
  apply IH. intros q Hq. apply H. right. exact Hq.
Qed.

(** X20. In a context without a provider called "folderProvider" the
    catalog run is fulfilled with the empty list, and the missing
    provider is reported once for each of the six presets. *)
Theorem catalog_without_folder_provider context :
  (forall provider,
      In provider (providers context) ->
      id provider <> "folderProvider"%string) ->
  itemCatalogRun isNotHidden isApplication spread sift context = Some [] /\
  reported context (presets isNotHidden isApplication spread) =
    repeat "folderProvider"%string 6.
Proof.
  intros H. pose proof (findProvider_none context _ H) as E.
  unfold itemCatalogRun, catalogOf, reported, presets, runPreset.
  cbn [map List.filter itemProviderId promiseAll].
  rewrite !E. split; reflexivity.
Qed.

Lemma findProvider_first (before : list (Provider Entry))
    (provider : Provider Entry) others acts pid :
  (forall other, In other before -> id other <> pid) ->
  id provider = pid ->
  findProvider (mkContext (before ++ provider :: others)%list acts) pid
  = Some provider.
Proof.
  intros Hb Hp. unfold findProvider. cbn [providers].
  induction before as [|other before IH]; cbn [app find].
  - rewrite Hp, String.eqb_refl. reflexivity.
  - rewrite (proj2 (String.eqb_neq _ _) (Hb other (or_introl eq_refl))).
    apply IH. intros q Hq. apply Hb. right. exact Hq.
Qed.

(** X21. Only the first provider called "folderProvider" is asked,
    wherever it stands in the list: the providers with another id before
    it, all the providers after it, and the actions of the context have
    no influence on the catalog. *)
Theorem first_folder_provider_wins (before : list (Provider Entry))
    (provider : Provider Entry) others acts acts' :
  (forall other,
      In other before -> id other <> "folderProvider"%string) ->
  id provider = "folderProvider"%string ->
  itemCatalogRun isNotHidden isApplication spread sift
    (mkContext (before ++ provider :: others)%list acts) =
  itemCatalogRun isNotHidden isApplication spread sift
    (mkContext [provider] acts').
Proof.
  intros Hb Hp.
  pose proof (findProvider_first before provider others acts _ Hb Hp) as E1.
  pose proof (findProvider_first [] provider [] acts' _
                (fun other (H : In other []) => match H with end) Hp) as E2.
  cbn [app] in E2.
  unfold itemCatalogRun, catalogOf, presets, runPreset.
  cbn [map itemProviderId]. rewrite !E1, !E2. reflexivity.
Qed.

End CatalogFacts.
End CatalogFacts.

(** * The catalog at concrete inputs *)

Lemma catalog_membership_witness :
  In "Mail.app"%string [ "Mail.app"; "notes.txt"; "Mail.app"; "notes.txt";
                          "Mail.app"; "notes.txt"; "Mail.app"; "notes.txt";
                          "Mail.app"; "Mail.app" ]%string <->
  exists preset,
    In preset (Catalog.presets notHidden application bothFilters) /\
    Catalog.contributes (fun f => f)
      (sampleContext [githubProvider; folderProvider; brokenProvider])
      preset "Mail.app"%string.
Proof.
  apply (CatalogFacts.catalog_membership string (string -> bool)
           notHidden application bothFilters (fun f => f)
           (sampleContext [githubProvider; folderProvider; brokenProvider])).
  vm_compute. reflexivity.
Defined.

Lemma catalog_without_folder_provider_witness :
  sampleCatalog [githubProvider] = Some [].
Proof.
  apply (CatalogFacts.catalog_without_folder_provider string
           (string -> bool) notHidden application bothFilters (fun f => f)
           (sampleContext [githubProvider])).
  intros provider [<-|[]]. vm_compute. discriminate.
Defined.

Lemma first_folder_provider_wins_witness :
  sampleCatalog [githubProvider; folderProvider; brokenProvider]
  = sampleCatalog [folderProvider].
Proof.
  apply (CatalogFacts.first_folder_provider_wins string (string -> bool)
           notHidden application bothFilters (fun f => f)
           [githubProvider] folderProvider [brokenProvider] [] []).
  - intros other [<-|[]]. vm_compute. discriminate.
  - reflexivity.
Defined.
